(** * pygosym: symbol-table and PC/line-table decoders

    A shallow embedding of [pygosym/pclntab.py] and [pygosym/symtab.py].
    Python integers are [Z]; a [bytes]/[memoryview] buffer is a [list Z] of
    values in 0..255; a Python [str] is the list of its code points; a
    [dict] is a [gmap].  Objects that the program shares and mutates
    ([Sym], [Func], [Obj]) live in the lists of the [Table] that owns them
    and are referred to by their index there.  Exceptions are the [Raise]
    outcome of the [result] monad; a loop that may run for ever takes a
    fuel and ends in [OutOfFuel] when the fuel is spent. *)

From Stdlib Require Import ZArith Lia Ascii String.
From stdpp Require Import base option list gmap strings.

Local Open Scope Z_scope.

(** ** Python primitives *)
Module Py.

Inductive exn : Type :=
| DecodingError (msg : string)
| UnboundLocalError (var : string)
| IndexError
| TypeError
| AttributeError
| ZeroDivisionError
| UnicodeDecodeError.

Inductive result (A : Type) : Type :=
| Ok (a : A)
| Raise (e : exn)
| OutOfFuel.
Arguments Ok {A} a.
Arguments Raise {A} e.
Arguments OutOfFuel {A}.

#[export] Instance result_ret : MRet result := fun A a => Ok a.
#[export] Instance result_bind : MBind result := fun A B f m =>
  match m with
  | Ok a => f a
  | Raise e => Raise e
  | OutOfFuel => OutOfFuel
  end.

#[export] Instance result_fmap : FMap result := fun A B f m =>
  match m with
  | Ok a => Ok (f a)
  | Raise e => Raise e
  | OutOfFuel => OutOfFuel
  end.

(** [str]: code points. *)
Abbreviation pystr := (list Z).

Definition ord (c : ascii) : Z := Z.of_N (N_of_ascii c).

(** The code points of an ASCII literal; also the bytes of a [b"..."]. *)
Fixpoint lit (s : string) : list Z :=
  match s with
  | EmptyString => []
  | String c r => ord c :: lit r
  end.

(** [x in b"..."] for an integer [x]. *)
Definition in_bytes (x : Z) (s : string) : bool := existsb (Z.eqb x) (lit s).

Definition len {A} (l : list A) : Z := Z.of_nat (length l).

(** Slice bounds are clamped, a negative bound counts from the end. *)
Definition adjust_index (n i : Z) : Z :=
  if i <? 0 then Z.max (i + n) 0 else Z.min i n.

(** [l[lo:hi]] *)
Definition py_slice {A} (l : list A) (lo hi : Z) : list A :=
  let a := adjust_index (len l) lo in
  let b := adjust_index (len l) hi in
  take (Z.to_nat (b - a)) (drop (Z.to_nat a) l).

(** [l[lo:]] *)
Definition slice_from {A} (l : list A) (lo : Z) : list A := py_slice l lo (len l).

(** [l[:hi]] *)
Definition slice_to {A} (l : list A) (hi : Z) : list A := py_slice l 0 hi.

(** [l[i]]: out of range is an [IndexError]. *)
Definition getitem {A} (l : list A) (i : Z) : result A :=
  let j := if i <? 0 then i + len l else i in
  if (0 <=? j) && (j <? len l) then
    match l !! Z.to_nat j with
    | Some x => Ok x
    | None => Raise IndexError
    end
  else Raise IndexError.

(** [int.from_bytes(b, "little")] and ["big"], unsigned. *)
Fixpoint from_bytes_little (b : list Z) : Z :=
  match b with
  | [] => 0
  | x :: r => x + 256 * from_bytes_little r
  end.

Definition from_bytes_big (b : list Z) : Z := from_bytes_little (rev b).

(** Short-circuit [or] and [and] over operands that may raise. *)
Definition por (a b : result bool) : result bool :=
  x ← a; if (x : bool) then Ok true else b.
Definition pand (a b : result bool) : result bool :=
  x ← a; if (x : bool) then b else Ok false.

(** [l[i] != v] *)
Definition ne_at (l : list Z) (i v : Z) : result bool :=
  x ← getitem l i; Ok (negb (x =? v)).

(** [bytes.decode("utf-8")], strict: the well-formed byte sequences of the
    Unicode standard, anything else is a [UnicodeDecodeError]. *)
Definition is_cont (b : Z) : bool := (0x80 <=? b) && (b <=? 0xBF).
Definition cont (b : Z) : Z := Z.land b 0x3F.

Fixpoint utf8 (bs : list Z) : option (list Z) :=
  match bs with
  | [] => Some []
  | b0 :: r1 =>
    if (0 <=? b0) && (b0 <? 0x80) then cons b0 <$> utf8 r1
    else match r1 with
    | [] => None
    | b1 :: r2 =>
      if (0xC2 <=? b0) && (b0 <=? 0xDF) then
        if is_cont b1
        then cons (Z.lor (Z.shiftl (Z.land b0 0x1F) 6) (cont b1)) <$> utf8 r2
        else None
      else match r2 with
      | [] => None
      | b2 :: r3 =>
        if (0xE0 <=? b0) && (b0 <=? 0xEF) then
          if (if b0 =? 0xE0 then (0xA0 <=? b1) && (b1 <=? 0xBF)
              else if b0 =? 0xED then (0x80 <=? b1) && (b1 <=? 0x9F)
              else is_cont b1) && is_cont b2
          then cons (Z.lor (Z.shiftl (Z.land b0 0x0F) 12)
                       (Z.lor (Z.shiftl (cont b1) 6) (cont b2))) <$> utf8 r3
          else None
        else match r3 with
        | [] => None
        | b3 :: r4 =>
          if (0xF0 <=? b0) && (b0 <=? 0xF4) then
            if (if b0 =? 0xF0 then (0x90 <=? b1) && (b1 <=? 0xBF)
                else if b0 =? 0xF4 then (0x80 <=? b1) && (b1 <=? 0x8F)
                else is_cont b1) && is_cont b2 && is_cont b3
            then cons (Z.lor (Z.shiftl (Z.land b0 0x07) 18)
                         (Z.lor (Z.shiftl (cont b1) 12)
                            (Z.lor (Z.shiftl (cont b2) 6) (cont b3)))) <$> utf8 r4
            else None
          else None
        end
      end
    end
  end.

Definition decode (bs : list Z) : result (list Z) :=
  match utf8 bs with
  | Some s => Ok s
  | None => Raise UnicodeDecodeError
  end.

End Py.
Export Py.

(** ** pclntab.py *)
Module Pclntab.

(** [Sym.func] is the index of the owning [Func] in [Table.funcs]. *)
Record Sym : Type := mkSym {
  value : Z;
  type : Z;
  name : pystr;
  go_type : Z;
  func : option nat
}.

(** [Sym()] *)
Definition Sym0 : Sym := mkSym 0 0 [] 0 None.

Inductive ByteOrder : Type := LITTLE_ENDIAN | BIG_ENDIAN.

Definition from_bytes (o : ByteOrder) (b : list Z) : Z :=
  match o with
  | LITTLE_ENDIAN => from_bytes_little b
  | BIG_ENDIAN => from_bytes_big b
  end.

Definition u32 (o : ByteOrder) (b : list Z) : Z := from_bytes o (slice_to b 4).
Definition u64 (o : ByteOrder) (b : list Z) : Z := from_bytes o (slice_to b 8).

(** What [int.to_bytes] raises: [ValueError] for a negative length,
    [OverflowError] for a negative integer or one that does not fit. *)
Inductive to_bytes_error : Type := ValueError | OverflowError.

(** The [n] low base-256 digits of [i], least significant first. *)
Fixpoint digits_little (n : nat) (i : Z) : list Z :=
  match n with
  | O => []
  | S n => i mod 256 :: digits_little n (i / 256)
  end.

(** [ByteOrder.to_bytes] *)
Definition to_bytes (o : ByteOrder) (i : Z) (length : Z) : to_bytes_error + list Z :=
  if length <? 0 then inl ValueError
  else if i <? 0 then inl OverflowError
  else if 256 ^ length <=? i then inl OverflowError
  else
    inr (match o with
         | LITTLE_ENDIAN => digits_little (Z.to_nat length) i
         | BIG_ENDIAN => rev (digits_little (Z.to_nat length) i)
         end).

(** [file_map] is compared with [None] by [init_file_map], so the field is
    an option; the dataclass default is the empty dict. *)
Record Go12State : Type := mkGo12State {
  functab : list Z;
  filetab : list Z;
  binary : ByteOrder;
  quantum : Z;
  ptrsize : Z;
  nfunctab : Z;
  nfiletab : Z;
  file_map : option (gmap pystr Z);
  strings : gmap Z pystr
}.

Definition set_file_map (fm : option (gmap pystr Z)) (st : Go12State) : Go12State :=
  mkGo12State (functab st) (filetab st) (binary st) (quantum st) (ptrsize st)
    (nfunctab st) (nfiletab st) fm (strings st).

Definition set_strings (ss : gmap Z pystr) (st : Go12State) : Go12State :=
  mkGo12State (functab st) (filetab st) (binary st) (quantum st) (ptrsize st)
    (nfunctab st) (nfiletab st) (file_map st) ss.

Record LineTable : Type := mkLineTable {
  data : list Z;
  PC : Z;
  line : Z;
  checked_go12 : bool;
  _go12 : option Go12State
}.

(** [Func.line_table]: the table's one modern line table, shared by every
    function, or a private slice of the classic one. *)
Inductive LineTableRef : Type :=
| SharedGo12
| Sliced (lt : LineTable).

(** [Func.sym]: the record [t.syms[i]], or a [Sym] of the function's own. *)
Inductive SymRef : Type :=
| InSyms (i : nat)
| Own (s : Sym).

(** The fields [Func] inherits from [Sym] keep their defaults and are never
    read.  [params], [locals] hold indices into [Table.syms], [obj] an index
    into [Table.objs]. *)
Record Func : Type := mkFunc {
  sym : SymRef;
  entry : Z;
  end_ : Z;
  params : list nat;
  locals : list nat;
  frame_size : Z;
  line_table : option LineTableRef;
  obj : option nat
}.

(** [Func()] *)
Definition Func0 : Func := mkFunc (Own Sym0) 0 0 [] [] 0 None None.

(** [funcs] holds indices into [Table.funcs], [paths] into [Table.syms]. *)
Record Obj : Type := mkObj {
  funcs : list nat;
  paths : option (list nat)
}.

(** [Obj()] *)
Definition Obj0 : Obj := mkObj [] None.

Definition uintptr (st : Go12State) (b : list Z) : Z :=
  from_bytes (binary st) (slice_to b (ptrsize st)).

(** The [strlen] loop of [Go12State.string]. *)
Fixpoint strlen (bs : list Z) : Z :=
  match bs with
  | [] => 0
  | b :: r => if b =? 0 then 0 else 1 + strlen r
  end.

(** [Go12State.string] *)
Definition Go12State_string (st : Go12State) (data : list Z) (off : Z)
  : result (pystr * Go12State) :=
  match strings st !! off with
  | Some res => Ok (res, st)
  | None =>
    let size := strlen (slice_from data off) in
    res ← decode (py_slice data off (off + size));
    Ok (res, set_strings (<[off := res]> (strings st)) st)
  end.

(** [self.string] is called there with one argument, which is a
    [TypeError] as soon as the range has an element. *)
Definition init_file_map (st : Go12State) : result Go12State :=
  match file_map st with
  | Some _ => Ok st
  | None =>
    if 1 <? nfiletab st then Raise TypeError
    else Ok (set_file_map (Some ∅) st)
  end.

(** [m] maps a file name to the index of its [Obj]. *)
Definition go12_map_files (st : Go12State) (m : gmap pystr nat) (obj : nat)
  : result (gmap pystr nat * Go12State) :=
  st' ← init_file_map st;
  match file_map st' with
  | None => Raise AttributeError
  | Some fm => Ok (map_fold (fun file_name _ m => <[file_name := obj]> m) m fm, st')
  end.

Definition OLD_QUANTUM : Z := 1.
Definition GO12_MAGIC : Z := 0xfffffffb.

(** The header test of [go12_init], operand by operand. *)
Definition bad_header (d : list Z) : result bool :=
  por (Ok (len d <? 16))
 (por (ne_at d 4 0)
 (por (ne_at d 5 0)
 (por (pand (ne_at d 6 1) (pand (ne_at d 6 2) (ne_at d 6 4)))
      (pand (ne_at d 7 4) (ne_at d 7 8))))).

Definition set_go12 (g : option Go12State) (lt : LineTable) : LineTable :=
  mkLineTable (data lt) (PC lt) (line lt) (checked_go12 lt) g.

Definition set_checked (b : bool) (lt : LineTable) : LineTable :=
  mkLineTable (data lt) (PC lt) (line lt) b (_go12 lt).

(** [Go12State(...)] is built without [binary], which stays little-endian;
    the handler of the [try] only re-raises. *)
Definition go12_init (lt : LineTable) : result LineTable :=
  let d := data lt in
  bad ← bad_header d;
  if (bad : bool) then Ok lt
  else
    let go (binary : ByteOrder) : result LineTable :=
      quantum ← getitem d 6;
      ptrsize ← getitem d 7;
      let nfunctab := from_bytes binary (py_slice d 8 (8 + ptrsize)) in
      let functab := slice_from d (8 + ptrsize) in
      let functabsize := (nfunctab * 2 + 1) * ptrsize in
      let fileoff := from_bytes binary (py_slice functab functabsize (functabsize + 4)) in
      let functab := slice_to functab functabsize in
      let filetab := slice_from d fileoff in
      let nfiletab := from_bytes binary (slice_to filetab 4) in
      let filetab := slice_to filetab (nfiletab * 4) in
      Ok (set_go12 (Some (mkGo12State functab filetab LITTLE_ENDIAN quantum ptrsize
                            nfunctab nfiletab (Some ∅) ∅)) lt) in
    if from_bytes_big (slice_to d 4) =? GO12_MAGIC then go BIG_ENDIAN
    else if from_bytes_little (slice_to d 4) =? GO12_MAGIC then go LITTLE_ENDIAN
    else Ok lt.

(** The [go12] property: the state found, and the line table afterwards. *)
Definition go12 (lt : LineTable) : result (option Go12State * LineTable) :=
  if checked_go12 lt then Ok (_go12 lt, lt)
  else
    lt' ← go12_init (set_checked true lt);
    Ok (_go12 lt', lt').

(** One turn of the loop of [parse], for a buffer that is not empty. *)
Definition parse_step (b : list Z) (pc line : Z) : list Z * Z * Z :=
  match b with
  | [] => (b, pc, line)
  | code :: b =>
    if code =? 0 then
      if len b <? 4 then (take 0 b, pc + OLD_QUANTUM, line)
      else
        let val := from_bytes_big (take 4 b) in
        (drop 4 b, pc + OLD_QUANTUM, line + val)
    else if code <=? 64 then (b, pc + OLD_QUANTUM, line + code)
    else if code <=? 128 then (b, pc + OLD_QUANTUM, line - (code - 64))
    else (b, pc + OLD_QUANTUM * (code - 128), line)
  end.

Definition parse_cond (target_pc target_line : Z) (b : list Z) (pc line : Z) : bool :=
  (pc <=? target_pc) && negb (line =? target_line) && (0 <? len b).

(** Every turn consumes a byte: the length of the buffer is fuel enough
    (see [parse_loop_exit]). *)
Fixpoint parse_loop (fuel : nat) (target_pc target_line : Z)
    (b : list Z) (pc line : Z) : list Z * Z * Z :=
  match fuel with
  | O => (b, pc, line)
  | S fuel =>
    if parse_cond target_pc target_line b pc line then
      let '(b', pc', line') := parse_step b pc line in
      parse_loop fuel target_pc target_line b' pc' line'
    else (b, pc, line)
  end.

Definition parse (lt : LineTable) (target_pc target_line : Z) : list Z * Z * Z :=
  parse_loop (length (data lt)) target_pc target_line (data lt) (PC lt) (line lt).

(** [LineTable.slice] *)
Definition slice (lt : LineTable) (pc : Z) : LineTable :=
  let '(data, pc, line) := parse lt pc (-1) in
  mkLineTable data pc line false None.

Definition new_line_table (data : list Z) (text : Z) : LineTable :=
  mkLineTable data text 0 false None.

(** [go12_funcs], with the line table's buffer; the functions and the
    state with its string cache filled. *)
Fixpoint go12_funcs_loop (data : list Z) (ixs : list nat) (st : Go12State)
  : result (list Func * Go12State) :=
  match ixs with
  | [] => Ok ([], st)
  | i :: ixs =>
    let i := Z.of_nat i in
    let entry := uintptr st (slice_from (functab st) (2 * i * ptrsize st)) in
    let end_ := uintptr st (slice_from (functab st) ((2 * i + 2) * ptrsize st)) in
    let info := slice_from data
                  (uintptr st (slice_from (functab st) ((2 * i + 1) * ptrsize st))) in
    let frame_size := u32 (binary st) (slice_from info (ptrsize st + 2 * 4)) in
    '(name, st) ← Go12State_string st data (u32 (binary st) (slice_from info (ptrsize st)));
    let fn := mkFunc (Own (mkSym entry (ord "T") name 0 None)) entry end_ [] []
                frame_size (Some SharedGo12) None in
    '(fns, st) ← go12_funcs_loop data ixs st;
    Ok (fn :: fns, st)
  end.

Definition go12_funcs (st : Go12State) (line_table : LineTable)
  : result (list Func * Go12State) :=
  if ptrsize st =? 0 then Raise ZeroDivisionError
  else
    let n := len (functab st) / ptrsize st / 2 in
    go12_funcs_loop (data line_table) (seq 0 (Z.to_nat n)) st.

End Pclntab.

(** ** symtab.py *)
Module Symtab.
Import Pclntab.

(** The low-level record [sym] that [walksymtab] fills in. *)
Module Raw.
Record sym : Type := mk {
  value : Z;
  typ : Z;
  name : list Z;
  gotype : Z
}.
Definition set_value (v : Z) (s : sym) : sym := mk v (typ s) (name s) (gotype s).
Definition set_typ (v : Z) (s : sym) : sym := mk (value s) v (name s) (gotype s).
Definition set_name (v : list Z) (s : sym) : sym := mk (value s) (typ s) v (gotype s).
Definition set_gotype (v : Z) (s : sym) : sym := mk (value s) (typ s) (name s) v.
End Raw.

Record Table : Type := mkTable {
  syms : list Sym;
  funcs : list Func;
  files : gmap pystr nat;
  objs : list Obj;
  go12line : option LineTable
}.

Definition LITTLE_ENDIAN_SYMTAB : list Z := [0xFD; 0xFF; 0xFF; 0xFF; 0x00; 0x00; 0x00].
Definition BIG_ENDIAN_SYMTAB : list Z := [0xFF; 0xFF; 0xFF; 0xFD; 0x00; 0x00; 0x00].
Definition OLD_LITTLE_ENDIAN_SYMTAB : list Z := [0xFE; 0xFF; 0xFF; 0xFF; 0x00; 0x00].

Definition startswith (d prefix : list Z) : bool :=
  bool_decide (take (length prefix) d = prefix).

(** The local variables of the generator [walksymtab] that live from one
    record to the next; [i] and [nnul] are unbound ([None]) until a loop
    assigns them. *)
Module W.
Record t : Type := mk {
  new_table_format : bool;
  order : ByteOrder;
  ptrsz : Z;
  s : Raw.sym;
  p : list Z;
  i : option Z;
  nnul : option Z
}.
End W.

(** How a pass over one record goes on: [Go] with a value, [Ret] when the
    generator returns (its record [s] as it is then), [Err] when it
    raises. *)
Inductive flow (A : Type) : Type :=
| Go (a : A)
| Ret (s : Raw.sym)
| Err (e : exn).
Arguments Go {A} a.
Arguments Ret {A} s.
Arguments Err {A} e.

#[export] Instance flow_ret : MRet flow := fun A a => Go a.
#[export] Instance flow_bind : MBind flow := fun A B f m =>
  match m with
  | Go a => f a
  | Ret s => Ret s
  | Err e => Err e
  end.

(** Reading a local variable. *)
Definition local {A} (var : string) (v : option A) : flow A :=
  match v with
  | Some a => Go a
  | None => Err (UnboundLocalError var)
  end.

Definition index (l : list Z) (i : Z) : flow Z :=
  match getitem l i with
  | Ok x => Go x
  | Raise e => Err e
  | OutOfFuel => Err IndexError
  end.

Definition EOF : exn := DecodingError "unexpected EOF".

(** [while len(p) > 0 and p[0] & 0x80 != 0]: in the body [<<] binds
    tighter than [&]. *)
Fixpoint varint_loop (p : list Z) (value shift : Z) : list Z * Z * Z :=
  match p with
  | [] => (p, value, shift)
  | p0 :: rest =>
    if negb (Z.land p0 0x80 =? 0)
    then varint_loop rest (Z.lor value (Z.land p0 (Z.shiftl 0x7F shift))) (shift + 7)
    else (p, value, shift)
  end.

(** [for i in range(len(p)): if p[i] == 0: nnul = 1; break], at index [k]. *)
Fixpoint scan_nul (p : list Z) (k : Z) (i nnul : option Z) : option Z * option Z :=
  match p with
  | [] => (i, nnul)
  | x :: r => if x =? 0 then (Some k, Some 1) else scan_nul r (k + 1) (Some k) nnul
  end.

(** [for i in range(0, len(p), 2): if p[i] == 0 and p[i + 1] == 0: nnul = 2; break] *)
Fixpoint scan_nul2 (p : list Z) (k : Z) (i nnul : option Z) : flow (option Z * option Z) :=
  match p with
  | [] => Go (i, nnul)
  | x :: r =>
    if x =? 0 then
      match r with
      | [] => Err IndexError
      | y :: r' => if y =? 0 then Go (Some k, Some 2) else scan_nul2 r' (k + 2) (Some k) nnul
      end
    else
      match r with
      | [] => Go (Some k, nnul)
      | _ :: r' => scan_nul2 r' (k + 2) (Some k) nnul
      end
  end.

(** Type, value and Go type of a record in the new layout. *)
Definition head_new (w : W.t) : flow (Z * Raw.sym * list Z) :=
  let p := W.p w in
  let s := W.s w in
  p0 ← index p 0;
  let typ := Z.land p0 0x3F in
  let wide_value := negb (Z.land p0 0x40 =? 0) in
  let go_type := negb (Z.land p0 0x80 =? 0) in
  let typ := if typ <? 26 then typ + ord "A" else typ + (ord "a" - 26) in
  let s := Raw.set_typ typ s in
  let p := drop 1 p in
  '(s, p) ←
    (if wide_value then
       if len p <? W.ptrsz w then Err EOF
       else Go (Raw.set_value (from_bytes (W.order w) (py_slice p 0 (W.ptrsz w))) s,
                slice_from p (W.ptrsz w))
     else
       let '(p, value, shift) := varint_loop p 0 0 in
       let s := Raw.set_value value s in
       if len p =? 0 then Ret s
       else
         p0 ← index p 0;
         Go (Raw.set_value (Z.lor value (Z.shiftl p0 shift)) s, drop 1 p));
  '(s, p) ←
    (if go_type then
       if len p <? W.ptrsz w then Err EOF
       else Go (Raw.set_gotype (from_bytes (W.order w) (py_slice p 0 (W.ptrsz w))) s,
                slice_from p (W.ptrsz w))
     else Go (s, p));
  Go (typ, s, p).

(** Value and type of a record in the old layout. *)
Definition head_old (w : W.t) : flow (Z * Raw.sym * list Z) :=
  let p := W.p w in
  let s := Raw.set_value (from_bytes (W.order w) (py_slice p 0 4)) (W.s w) in
  if len p <? 5 then Err EOF
  else
    typ ← index p 4;
    if Z.land typ 0x80 =? 0 then Err (DecodingError "bad symbol type")
    else
      let typ := Z.land typ (Z.lnot 0x80) in
      Go (typ, Raw.set_typ typ s, drop 5 p).

(** One turn of the [while len(p) >= 4] loop, up to its [yield]. *)
Definition walk_record (w : W.t) : flow (Raw.sym * W.t) :=
  '(typ, s, p) ← (if W.new_table_format w then head_new w else head_old w);
  let '(i, nnul) := scan_nul p 0 (W.i w) (W.nnul w) in
  '(p, i, nnul) ←
    (if in_bytes typ "Zz" then
       iv ← local "i" i;
       nv ← local "nnul" nnul;
       let p := slice_from p (iv + nv) in
       '(i, nnul) ← scan_nul2 p 0 i nnul;
       Go (p, i, nnul)
     else Go (p, i, nnul));
  iv ← local "i" i;
  nv ← local "nnul" nnul;
  if len p <? iv + nv then Err EOF
  else
    let s := Raw.set_name (py_slice p 0 iv) s in
    let iv := iv + nv in
    let p := slice_from p iv in
    '(s, p) ←
      (if negb (W.new_table_format w) then
         if len p <? 4 then Err EOF
         else Go (Raw.set_gotype (from_bytes (W.order w) (slice_to p 4)) s, drop 4 p)
       else Go (s, p));
    Go (s, W.mk (W.new_table_format w) (W.order w) (W.ptrsz w) s p (Some iv) nnul).

(** How the generator ends: it returns (with its record [s], once that
    exists), it raises, or the fuel of the model is spent. *)
Inductive ending : Type :=
| Returned (s : option Raw.sym)
| Raised (e : exn)
| Unfinished.

(** The generator up to its loop. *)
Definition walk_start (data : list Z) : W.t + ending :=
  if len data =? 0 then inr (Returned None)
  else
    let data_magic := slice_to data 7 in
    let '(data, order, new_table_format) :=
      if startswith data_magic OLD_LITTLE_ENDIAN_SYMTAB
      then (slice_from data 6, LITTLE_ENDIAN, false)
      else if startswith data_magic BIG_ENDIAN_SYMTAB then (data, BIG_ENDIAN, true)
      else if startswith data_magic LITTLE_ENDIAN_SYMTAB then (data, LITTLE_ENDIAN, true)
      else (data, BIG_ENDIAN, false) in
    if new_table_format then
      if len data <? 8 then inr (Raised EOF)
      else
        match getitem data 7 with
        | Ok ptrsz =>
          if negb ((ptrsz =? 4) || (ptrsz =? 8)) then inr (Returned None)
          else inl (W.mk true order ptrsz (Raw.mk 0 0 [] 0) (slice_from data 8) None None)
        | Raise e => inr (Raised e)
        | OutOfFuel => inr Unfinished
        end
    else inl (W.mk false order 0 (Raw.mk 0 0 [] 0) data None None).

(** The records yielded, in order, and the way the generator ends.  Every
    record takes at least one byte of [p]. *)
Fixpoint walk (fuel : nat) (w : W.t) : list Raw.sym * ending :=
  if len (W.p w) <? 4 then ([], Returned (Some (W.s w)))
  else
    match fuel with
    | O => ([], Unfinished)
    | S fuel =>
      match walk_record w with
      | Go (s, w') => let '(l, e) := walk fuel w' in (s :: l, e)
      | Ret s => ([], Returned (Some s))
      | Err e => ([], Raised e)
      end
    end.

Definition walksymtab (data : list Z) : list Raw.sym * ending :=
  match walk_start data with
  | inl w => walk (length data) w
  | inr e => ([], e)
  end.

(** *** The table builder *)

(** What the first loop of [new_table] keeps from record to record. *)
Module A.
Record t : Type := mk {
  syms : list Sym;
  fname : gmap Z pystr;
  nf : Z;
  nz : Z;
  lasttyp : Z
}.
End A.

(** One path element: [fname.get], the separator, the element. *)
Definition join (fname : gmap Z pystr) (chunk : list Z) (ts_name : pystr) : result pystr :=
  let elt_idx := from_bytes_big chunk in
  match fname !! elt_idx with
  | None => Raise (DecodingError "bad filename code")
  | Some elt =>
    let ts_name :=
      match last ts_name with
      | Some c => if negb (c =? ord "/") then ts_name ++ lit "/" else ts_name
      | None => ts_name
      end in
    Ok (ts_name ++ elt)
  end.

(** [for i in range(0, len(s.name), 2)] over [s.name[i:i + 2]]. *)
Fixpoint path_name (fname : gmap Z pystr) (name : list Z) (ts_name : pystr) : result pystr :=
  match name with
  | [] => Ok ts_name
  | [b0] => join fname [b0] ts_name
  | b0 :: b1 :: r => ts_name ← join fname [b0; b1] ts_name; path_name fname r ts_name
  end.

(** [str.replace] of the middle dot by a dot. *)
Definition replace_middle_dot (s : pystr) : pystr :=
  (fun c => if c =? 0xB7 then ord "." else c) <$> s.

(** The body of [for s in walksymtab(symtab)]. *)
Definition add_sym (s : Raw.sym) (a : A.t) : result A.t :=
  let is_path := in_bytes (Raw.typ s) "Zz" in
  let nz := if is_path && negb (in_bytes (A.lasttyp a) "Zz") then A.nz a + 1 else A.nz a in
  ts_name ← (if is_path then path_name (A.fname a) (Raw.name s) []
             else replace_middle_dot <$> decode (Raw.name s));
  let ts := mkSym (Raw.value s) (Raw.typ s) ts_name (Raw.gotype s) None in
  let fname := if in_bytes (Raw.typ s) "f" then <[Raw.value s := ts_name]> (A.fname a)
               else A.fname a in
  let nf := if negb (in_bytes (Raw.typ s) "f") && in_bytes (Raw.typ s) "TtLl"
            then A.nf a + 1 else A.nf a in
  Ok (A.mk (A.syms a ++ [ts]) fname nf nz (Raw.typ s)).

Fixpoint add_syms (l : list Raw.sym) (a : A.t) : result A.t :=
  match l with
  | [] => Ok a
  | s :: l => a ← add_sym s a; add_syms l a
  end.

(** The local variables of [new_table] during its [while] loop; [obj] is
    an index into [t.objs], [obj], [end_] and [s] are unbound ([None])
    until assigned.  [np] and [na] are counted and never read. *)
Module L.
Record t : Type := mk {
  syms : list Sym;
  funcs : list Func;
  objs : list Obj;
  pcln : LineTable;
  s : option Raw.sym;
  i : nat;
  lastf : nat;
  obj : option nat;
  end_ : option nat
}.
End L.

Definition unbound {A} (var : string) (v : option A) : result A :=
  match v with
  | Some a => Ok a
  | None => Raise (UnboundLocalError var)
  end.

(** [for end in range(i + 1, len(t.syms))] with a [break] on [stop], over
    the records from [k] on. *)
Fixpoint for_end (stop : Sym -> bool) (rest : list Sym) (k : nat) (end_ : option nat)
  : option nat :=
  match rest with
  | [] => end_
  | x :: r => if stop x then Some k else for_end stop r (S k) (Some k)
  end.

(** [t.funcs[lastf:]], by index. *)
Definition funcs_from (fs : list Func) (lastf : nat) : list nat :=
  seq lastf (length fs - lastf).

Definition set_funcs (fs : list nat) (o : Obj) : Obj := mkObj fs (paths o).
Definition set_paths (ps : option (list nat)) (o : Obj) : Obj := mkObj (Pclntab.funcs o) ps.
Definition set_end (v : Z) (f : Func) : Func :=
  mkFunc (sym f) (entry f) v (params f) (locals f) (frame_size f) (line_table f) (obj f).
Definition set_func (v : option nat) (s : Sym) : Sym :=
  mkSym (value s) (type s) (name s) (go_type s) v.

(** [t.funcs[-1].end = v] *)
Definition patch_last_end (v : Z) (fs : list Func) : list Func :=
  alter (set_end v) (length fs - 1)%nat fs.

(** [for j in range(i, end)], over the indices [js]. *)
Fixpoint collect (syms : list Sym) (s : option Raw.sym) (js : list nat) (fn : Func)
  : result Func :=
  match js with
  | [] => Ok fn
  | j :: js =>
    ls ← (match syms !! j with Some ls => Ok ls | None => Raise IndexError end);
    fn ← (if in_bytes (type ls) "m" then
            s ← unbound "s" s;
            Ok (mkFunc (sym fn) (entry fn) (end_ fn) (params fn) (locals fn)
                  (Raw.value s) (line_table fn) (obj fn))
          else if in_bytes (type ls) "p" then
            Ok (mkFunc (sym fn) (entry fn) (end_ fn) (params fn ++ [j]) (locals fn)
                  (frame_size fn) (line_table fn) (obj fn))
          else if in_bytes (type ls) "a" then
            Ok (mkFunc (sym fn) (entry fn) (end_ fn) (params fn) (locals fn ++ [j])
                  (frame_size fn) (line_table fn) (obj fn))
          else Ok fn);
    collect syms s js fn
  end.

(** The body of [while i < len(t.syms)]; [modern] is [t.go12line is not None]. *)
Definition scan_body (modern : bool) (st : L.t) : result L.t :=
  let i := L.i st in
  sym ← (match L.syms st !! i with Some x => Ok x | None => Raise IndexError end);
  if in_bytes (type sym) "Zz" then
    if negb modern then
      Ok (L.mk (L.syms st) (L.funcs st) (L.objs st) (L.pcln st) (L.s st)
            (S i) (L.lastf st) (L.obj st) (L.end_ st))
    else
      o ← unbound "obj" (L.obj st);
      let objs := alter (set_funcs (funcs_from (L.funcs st) (L.lastf st))) o (L.objs st) in
      let lastf := length (L.funcs st) in
      let o := length objs in
      let objs := objs ++ [Obj0] in
      let end_ := for_end (fun x => negb (in_bytes (type x) "Zz"))
                    (drop (S i) (L.syms st)) (S i) (L.end_ st) in
      e ← unbound "end" end_;
      let objs := alter (set_paths (Some (seq i (e - i)))) o objs in
      Ok (L.mk (L.syms st) (L.funcs st) objs (L.pcln st) (L.s st) e lastf (Some o) end_)
  else if in_bytes (type sym) "TtLl" then
    let funcs := match L.funcs st with
                 | [] => []
                 | _ => patch_last_end (value sym) (L.funcs st)
                 end in
    if bool_decide (name sym = lit "runtime.etext") || bool_decide (name sym = lit "etext")
    then
      Ok (L.mk (L.syms st) funcs (L.objs st) (L.pcln st) (L.s st)
            (S i) (L.lastf st) (L.obj st) (L.end_ st))
    else
      let end_ := for_end (fun x => in_bytes (type x) "TtLlZz")
                    (drop (S i) (L.syms st)) (S i) (Some 0%nat) in
      e ← unbound "end" end_;
      let fi := length funcs in
      let syms := alter (set_func (Some fi)) i (L.syms st) in
      o ← unbound "obj" (L.obj st);
      let '(lt, pcln) :=
        if modern then (SharedGo12, L.pcln st)
        else let lt := slice (L.pcln st) (value sym) in (Sliced lt, lt) in
      let fn := mkFunc (InSyms i) (value sym) 0 [] [] 0 (Some lt) (Some o) in
      fn ← collect syms (L.s st) (seq i (e - i)) fn;
      Ok (L.mk syms (funcs ++ [fn]) (L.objs st) pcln (L.s st) e (L.lastf st) (L.obj st) end_)
  else
    Ok (L.mk (L.syms st) (L.funcs st) (L.objs st) (L.pcln st) (L.s st)
          (S i) (L.lastf st) (L.obj st) (L.end_ st)).

(** [while i < len(t.syms)] *)
Fixpoint scan (fuel : nat) (modern : bool) (st : L.t) : result L.t :=
  if (L.i st <? length (L.syms st))%nat then
    match fuel with
    | O => OutOfFuel
    | S fuel => st ← scan_body modern st; scan fuel modern st
    end
  else Ok st.

(** [new_table] up to its [while] loop: whether the line table is modern,
    the count [nf], [t.files], and the variables the loop starts from.
    The records of the generator are taken one by one, so that an
    exception of the loop body for a record comes before one the generator
    raises later. *)
Definition new_table_head (symtab : list Z) (pcln : LineTable)
  : result (bool * Z * gmap pystr nat * L.t) :=
  '(g, pcln) ← go12 pcln;
  let modern := bool_decide (g <> None) in
  let '(raws, e) := walksymtab symtab in
  a ← add_syms raws (A.mk [] ∅ 0 0 0);
  s ← (match e with
       | Returned s => Ok (match raws with [] => None | _ => s end)
       | Raised e => Raise e
       | Unfinished => OutOfFuel
       end);
  '(objs, obj, files, pcln) ←
    (if modern then
       go12 ← unbound "go12" (_go12 pcln);
       '(files, go12) ← go12_map_files go12 ∅ 0%nat;
       Ok ([Obj0], Some 0%nat, files, set_go12 (Some go12) pcln)
     else Ok (replicate (Z.to_nat (A.nz a)) Obj0, None, ∅, pcln));
  Ok (modern, A.nf a, files, L.mk (A.syms a) [] objs pcln s 0 0 obj None).

(** [new_table] after its [while] loop. *)
Definition new_table_tail (modern : bool) (nf : Z) (files : gmap pystr nat) (st : L.t)
  : result Table :=
  '(funcs, pcln) ←
    (if modern && (nf =? 0) then
       go12 ← unbound "go12" (_go12 (L.pcln st));
       '(funcs, go12) ← go12_funcs go12 (L.pcln st);
       Ok (funcs, set_go12 (Some go12) (L.pcln st))
     else Ok (L.funcs st, L.pcln st));
  o ← unbound "obj" (L.obj st);
  let objs := alter (set_funcs (funcs_from funcs (L.lastf st))) o (L.objs st) in
  Ok (mkTable (L.syms st) funcs files objs (if modern then Some pcln else None)).

(** [new_table]; [fuel] bounds the turns of its [while] loop. *)
Definition new_table (fuel : nat) (symtab : list Z) (pcln : LineTable) : result Table :=
  '(modern, nf, files, st) ← new_table_head symtab pcln;
  st ← scan fuel modern st;
  new_table_tail modern nf files st.

End Symtab.

(** ** read_syms.py *)
Module ReadSyms.
Import Pclntab Symtab.

(** What the program reads of an ELF file: the [p_flags] and [p_vaddr] of
    its segments, in order, and the data of its sections by name. *)
Record Segment : Type := mkSegment {
  p_flags : Z;
  p_vaddr : Z
}.

Record ELFFile : Type := mkELFFile {
  iter_segments : list Segment;
  sections : gmap string (list Z)
}.

Definition get_first_exec_seg (elf_file : ELFFile) : option Segment :=
  find (fun seg => negb (Z.land (p_flags seg) 1 =? 0)) (iter_segments elf_file).

Definition get_text_addr (elf_file : ELFFile) : option Z :=
  match get_first_exec_seg elf_file with
  | None => None
  | Some text => Some (p_vaddr text)
  end.

(** [section.data()] of the result of [get_section_by_name], which is
    [None] for a section the file does not have. *)
Definition section_data (elf_file : ELFFile) (name : string) : result (list Z) :=
  match sections elf_file !! name with
  | Some d => Ok d
  | None => Raise AttributeError
  end.

(** [go_funcs]; [fuel] is the one of [new_table]. *)
Definition go_funcs (fuel : nat) (elf_file : ELFFile) (text_addr : Z) : result (list Func) :=
  lntab ← section_data elf_file ".gopclntab";
  let line_table := new_line_table lntab text_addr in
  symtab ← section_data elf_file ".gosymtab";
  t ← new_table fuel symtab line_table;
  Ok (funcs t).

End ReadSyms.

(** ** The record layouts, written out *)
Module Layout.
Import Pclntab Symtab.

(** A record of the old layout: the value over four bytes, least
    significant first, the type with its high bit set, the name and its
    NUL, the type descriptor over four bytes. *)
Definition old_record (s : Raw.sym) : list Z :=
  digits_little 4 (Raw.value s) ++ [Raw.typ s + 128] ++ Raw.name s ++ [0]
    ++ digits_little 4 (Raw.gotype s).

(** What such a record may hold: 32-bit fields, a 7-bit type that is not
    a path type, a name without NUL. *)
Definition old_ok (s : Raw.sym) : Prop :=
  0 <= Raw.value s < 2 ^ 32
  /\ 0 <= Raw.gotype s < 2 ^ 32
  /\ 0 <= Raw.typ s < 128
  /\ in_bytes (Raw.typ s) "Zz" = false
  /\ Forall (fun b => b <> 0) (Raw.name s).

(** The address in slot [k] of the function table: slot [2 * i] holds the
    entry of function [i], slot [2 * i + 2] its end. *)
Definition slot (st : Go12State) (k : Z) : Z :=
  uintptr st (slice_from (functab st) (k * ptrsize st)).

(** An index of the filename table over two bytes, most significant
    first. *)
Definition index_bytes (k : Z) : list Z := [k / 256; k mod 256].

End Layout.

(** ** The specification's own notions *)
Module Spec.
Import Pclntab Symtab.

(** A header the modern check has to turn down: too short, a nonzero byte
    at offset 4 or 5, a quantum other than 1, 2, 4, a pointer size other
    than 4, 8, or a magic that matches in neither byte order. *)
Definition malformed_header (d : list Z) : bool :=
  (len d <? 16)
  || negb (nth 4 d 0 =? 0)
  || negb (nth 5 d 0 =? 0)
  || negb (existsb (Z.eqb (nth 6 d 0)) [1; 2; 4])
  || negb (existsb (Z.eqb (nth 7 d 0)) [4; 8])
  || (negb (from_bytes_big (take 4 d) =? GO12_MAGIC)
      && negb (from_bytes_little (take 4 d) =? GO12_MAGIC)).

(** A 32-bit value read as signed, as the opcode table words it. *)
Definition signed32 (u : Z) : Z := if u <? 2 ^ 31 then u else u - 2 ^ 32.

(** The little base-128 value of a byte sequence: seven bits a byte, the
    byte at index [k] shifted by [7 * k]. *)
Fixpoint base128_from (k : Z) (bs : list Z) : Z :=
  match bs with
  | [] => 0
  | b :: r => Z.shiftl (Z.land b 0x7F) (7 * k) + base128_from (k + 1) r
  end.
Definition base128 (bs : list Z) : Z := base128_from 0 bs.

Definition zsum (l : list Z) : Z := foldr Z.add 0 l.

Definition is_byte (b : Z) : Prop := 0 <= b < 256.

End Spec.

(** ** Sample buffers *)
Module Inputs.
Import Pclntab Symtab.

(** The old magic and one record: value 0x1000, type [T] with the high
    bit, the name [main.main], a zero type descriptor. *)
Definition main_main_symtab : list Z :=
  OLD_LITTLE_ENDIAN_SYMTAB ++ [0x00; 0x10; 0x00; 0x00] ++ [0xD4]
    ++ lit "main.main" ++ [0] ++ [0; 0; 0; 0].

(** A modern header, little-endian: quantum 1, pointer size 8, no function. *)
Definition modern_pclntab : list Z :=
  [0xFB; 0xFF; 0xFF; 0xFF; 0; 0; 1; 8] ++ [0; 0; 0; 0; 0; 0; 0; 0].

(** The old magic, a path record [Z] with an empty payload, a data record
    [D] named [x]. *)
Definition path_symtab : list Z :=
  OLD_LITTLE_ENDIAN_SYMTAB ++ [0; 0; 0; 0; 0xDA; 0; 0; 0; 0; 0; 0; 0]
    ++ [0; 0; 0; 0; 0xC4] ++ lit "x" ++ [0] ++ [0; 0; 0; 0].

(** The old magic and two path records [Z] with empty payloads. *)
Definition two_paths_symtab : list Z :=
  OLD_LITTLE_ENDIAN_SYMTAB ++ [0; 0; 0; 0; 0xDA; 0; 0; 0; 0; 0; 0; 0]
    ++ [0; 0; 0; 0; 0xDA; 0; 0; 0; 0; 0; 0; 0].

(** A modern table with a file table of two entries: ordinal 0 and the
    file [a.go] at offset 36. *)
Definition files_pclntab : list Z :=
  [0xFB; 0xFF; 0xFF; 0xFF; 0; 0; 1; 8] ++ [0; 0; 0; 0; 0; 0; 0; 0]
    ++ [0; 0; 0; 0; 0; 0; 0; 0] ++ [28; 0; 0; 0]
    ++ [2; 0; 0; 0] ++ [36; 0; 0; 0] ++ lit "a.go" ++ [0].

(** A modern table of one function [main.main] from 0x1000 to 0x1040, frame
    size 24: the function table at 16, its information at 44, its name at
    64, the file table at 74. *)
Definition one_func_pclntab : list Z :=
  [0xFB; 0xFF; 0xFF; 0xFF; 0; 0; 1; 8] ++ [1; 0; 0; 0; 0; 0; 0; 0]
    ++ [0x00; 0x10; 0; 0; 0; 0; 0; 0] ++ [44; 0; 0; 0; 0; 0; 0; 0]
    ++ [0x40; 0x10; 0; 0; 0; 0; 0; 0] ++ [74; 0; 0; 0]
    ++ [0x00; 0x10; 0; 0; 0; 0; 0; 0] ++ [64; 0; 0; 0] ++ [0; 0; 0; 0] ++ [24; 0; 0; 0]
    ++ lit "main.main" ++ [0] ++ [1; 0; 0; 0].

(** The state [go12_init] builds from it, and its one function. *)
Definition one_func_state : Go12State :=
  mkGo12State
    ([0x00; 0x10; 0; 0; 0; 0; 0; 0] ++ [44; 0; 0; 0; 0; 0; 0; 0]
       ++ [0x40; 0x10; 0; 0; 0; 0; 0; 0])
    [1; 0; 0; 0] LITTLE_ENDIAN 1 8 1 1 (Some ∅) ∅.

Definition one_func_funcs : list Func :=
  [mkFunc (Own (mkSym 0x1000 (ord "T") (lit "main.main") 0 None)) 0x1000 0x1040
     [] [] 24 (Some SharedGo12) None].

(** The same table written most significant byte first, under the
    big-endian magic. *)
Definition big_endian_pclntab : list Z :=
  [0xFF; 0xFF; 0xFF; 0xFB; 0; 0; 1; 8] ++ [0; 0; 0; 0; 0; 0; 0; 1]
    ++ [0; 0; 0; 0; 0; 0; 0x10; 0x00] ++ [0; 0; 0; 0; 0; 0; 0; 44]
    ++ [0; 0; 0; 0; 0; 0; 0x10; 0x40] ++ [0; 0; 0; 74]
    ++ [0; 0; 0; 0; 0; 0; 0x10; 0x00] ++ [0; 0; 0; 64] ++ [0; 0; 0; 0] ++ [0; 0; 0; 24]
    ++ lit "main.main" ++ [0] ++ [0; 0; 0; 1].

(** The new little-endian magic, pointer size 4, one record of type [T]
    whose value takes the bytes 80 82 01, the name [a]. *)
Definition varint_symtab : list Z :=
  LITTLE_ENDIAN_SYMTAB ++ [4] ++ [0x13; 0x80; 0x82; 0x01] ++ lit "a" ++ [0].

(** New magics with the pointer size 5, then a well-formed record. *)
Definition ptrsz5_little : list Z :=
  LITTLE_ENDIAN_SYMTAB ++ [5] ++ [0x13; 0x01] ++ lit "a" ++ [0].
Definition ptrsz5_big : list Z :=
  BIG_ENDIAN_SYMTAB ++ [5] ++ [0x13; 0x01] ++ lit "a" ++ [0].

(** A new-format record that ends inside its variable-width value. *)
Definition cut_varint_symtab : list Z :=
  LITTLE_ENDIAN_SYMTAB ++ [4] ++ [0x13; 0x80; 0x80; 0x80].

(** An old-format record that ends inside its name. *)
Definition cut_name_symtab : list Z :=
  OLD_LITTLE_ENDIAN_SYMTAB ++ [0x00; 0x10; 0x00; 0x00] ++ [0xD4] ++ lit "main".

(** A new-format buffer whose second record ends inside its name [bcd]. *)
Definition cut_second_name_symtab : list Z :=
  LITTLE_ENDIAN_SYMTAB ++ [4] ++ [0x13; 0x01] ++ lit "a" ++ [0]
    ++ [0x13; 0x02] ++ lit "bcd".

End Inputs.

(** Replace a closed term by its value. *)
Ltac run t :=
  let v := eval vm_compute in t in
  replace t with v by (vm_compute; reflexivity).

(** * Theorems *)

(** ** Python primitives: facts *)
Section PyFacts.
Context {A : Type}.
Implicit Types (l : list A) (i : Z).

Lemma len_nonneg l : 0 <= len l.
Proof. unfold len. lia. Qed.

Lemma len_cons (x : A) l : len (x :: l) = 1 + len l.
Proof. unfold len. simpl length. lia. Qed.

Lemma len_app l1 l2 : len (l1 ++ l2) = len l1 + len l2.
Proof. unfold len. rewrite length_app. lia. Qed.

(** An index within bounds never raises. *)
Lemma getitem_in_range l i :
  0 <= i < len l -> exists x, getitem l i = Ok x /\ l !! Z.to_nat i = Some x.
Proof.
  intros Hi. unfold getitem.
  destruct (Z.ltb_spec i 0) as [Hneg|_]; [lia|].
  destruct (Z.leb_spec 0 i) as [_|Hneg]; [|lia].
  destruct (Z.ltb_spec i (len l)) as [_|Hge]; [|lia].
  simpl. destruct (l !! Z.to_nat i) as [x|] eqn:Hx; [eauto|].
  apply lookup_ge_None in Hx. unfold len in Hi. lia.
Qed.

Lemma py_slice_length l lo hi : (length (py_slice l lo hi) <= length l)%nat.
Proof.
  unfold py_slice. rewrite length_take, length_drop. lia.
Qed.

Lemma slice_to_take l n : 0 <= n -> slice_to l n = take (Z.to_nat n) l.
Proof.
  intros Hn. unfold slice_to, py_slice, adjust_index.
  destruct (Z.ltb_spec 0 0) as [?|_]; [lia|].
  destruct (Z.ltb_spec n 0) as [?|_]; [lia|].
  rewrite (Z.min_l 0) by apply len_nonneg.
  rewrite Z.sub_0_r. change (Z.to_nat 0) with 0%nat. rewrite drop_0.
  destruct (Z.le_ge_cases n (len l)) as [Hle|Hge].
  - rewrite Z.min_l by assumption. reflexivity.
  - rewrite Z.min_r by lia. unfold len in *. rewrite Nat2Z.id.
    rewrite !take_ge by lia. reflexivity.
Qed.

Lemma slice_from_drop l n : 0 <= n -> slice_from l n = drop (Z.to_nat n) l.
Proof.
  intros Hn. unfold slice_from, py_slice, adjust_index.
  destruct (Z.ltb_spec n 0) as [?|_]; [lia|].
  destruct (Z.ltb_spec (len l) 0) as [Hneg|_].
  { pose proof (len_nonneg l). lia. }
  rewrite (Z.min_l (len l)) by lia.
  destruct (Z.le_ge_cases n (len l)) as [Hle|Hge].
  - rewrite Z.min_l by assumption. apply take_ge.
    rewrite length_drop. unfold len. lia.
  - rewrite Z.min_r by lia. unfold len in *. rewrite Nat2Z.id.
    rewrite !drop_ge by lia. apply take_nil.
Qed.
End PyFacts.

Lemma getitem_nth (l : list Z) i :
  0 <= i < len l -> getitem l i = Ok (nth (Z.to_nat i) l 0).
Proof.
  intros Hi. destruct (getitem_in_range l i Hi) as (x & -> & Hx).
  rewrite nth_lookup, Hx. reflexivity.
Qed.

Lemma ne_at_nth (l : list Z) i v :
  0 <= i < len l -> ne_at l i v = Ok (negb (nth (Z.to_nat i) l 0 =? v)).
Proof. intros Hi. unfold ne_at. rewrite getitem_nth by assumption. reflexivity. Qed.

(** ** The modern header check *)
Section Go12.
Import Pclntab Spec.

(** With sixteen bytes or more no operand of the test raises, and the test
    is the one of the five header conditions. *)
Lemma bad_header_value d :
  bad_header d =
  Ok ((len d <? 16)
      || negb (nth 4 d 0 =? 0)
      || negb (nth 5 d 0 =? 0)
      || negb (existsb (Z.eqb (nth 6 d 0)) [1; 2; 4])
      || negb (existsb (Z.eqb (nth 7 d 0)) [4; 8])).
Proof.
  unfold bad_header.
  destruct (Z.ltb_spec (len d) 16) as [Hshort|Hlong]; [reflexivity|].
  rewrite !ne_at_nth by lia.
  change (Z.to_nat 4) with 4%nat. change (Z.to_nat 5) with 5%nat.
  change (Z.to_nat 6) with 6%nat. change (Z.to_nat 7) with 7%nat.
  cbn [existsb orb].
  destruct (nth 4 d 0 =? 0); [|reflexivity].
  destruct (nth 5 d 0 =? 0); [|reflexivity].
  cbn [por pand mbind result_bind negb orb].
  rewrite !(Z.eqb_sym (nth 6 d 0)), !(Z.eqb_sym (nth 7 d 0)).
  destruct (1 =? nth 6 d 0), (2 =? nth 6 d 0), (4 =? nth 6 d 0),
    (4 =? nth 7 d 0), (8 =? nth 7 d 0); reflexivity.
Qed.

Lemma go12_init_value lt :
  exists g, go12_init lt = Ok (set_go12 g lt)
    /\ (malformed_header (data lt) = true -> g = _go12 lt).
Proof.
  unfold go12_init, malformed_header.
  rewrite bad_header_value.
  cbn [mbind result_bind].
  set (hdr := (len (data lt) <? 16) || _ || _ || _ || _).
  assert (Hid : set_go12 (_go12 lt) lt = lt) by (destruct lt; reflexivity).
  destruct hdr eqn:Hhdr.
  { exists (_go12 lt). rewrite Hid. auto. }
  assert (Hlen : 16 <= len (data lt)).
  { destruct (Z.ltb_spec (len (data lt)) 16); [discriminate Hhdr|assumption]. }
  rewrite !getitem_nth by lia. cbn [mbind result_bind].
  rewrite (slice_to_take (data lt) 4) by lia.
  change (Z.to_nat 4) with 4%nat. cbn [orb].
  destruct (from_bytes_big (take 4 (data lt)) =? GO12_MAGIC).
  { eexists. split; [reflexivity|]. cbn. discriminate. }
  destruct (from_bytes_little (take 4 (data lt)) =? GO12_MAGIC).
  { eexists. split; [reflexivity|]. cbn. discriminate. }
  exists (_go12 lt). rewrite Hid. auto.
Qed.

(** The [go12] property of a fresh line table returns, whatever the
    buffer: the state found, none on a malformed header, and the table with
    the check recorded. *)
Lemma go12_fresh_value (data : list Z) (text : Z) :
  exists g,
    go12 (new_line_table data text) = Ok (g, mkLineTable data text 0 true g)
    /\ (malformed_header data = true -> g = None).
Proof.
  unfold go12, new_line_table. cbn [checked_go12].
  destruct (go12_init_value (set_checked true (mkLineTable data text 0 false None)))
    as (g & Hg & Hbad).
  rewrite Hg. cbn [mbind result_bind _go12 set_go12]. eauto.
Qed.
End Go12.

(** ** The classic line table *)
Section Classic.
Import Pclntab Spec.

Lemma parse_step_shorter code b pc line :
  (length (parse_step (code :: b) pc line).1.1 <= length b)%nat.
Proof.
  unfold parse_step.
  destruct (code =? 0).
  - destruct (len b <? 4); cbn [fst]; rewrite ?length_take, ?length_drop; lia.
  - destruct (code <=? 64); [cbn; lia|].
    destruct (code <=? 128); cbn; lia.
Qed.

(** The length of the buffer is fuel enough: the loop stops because its
    condition fails. *)
Lemma parse_loop_exit fuel target_pc target_line b pc line :
  (length b <= fuel)%nat ->
  let '(b', pc', line') := parse_loop fuel target_pc target_line b pc line in
  parse_cond target_pc target_line b' pc' line' = false.
Proof.
  revert b pc line.
  induction fuel as [|fuel IH]; intros b pc line Hlen; cbn [parse_loop].
  - destruct b; [|cbn in Hlen; lia].
    unfold parse_cond. cbn. apply andb_false_r.
  - destruct (parse_cond target_pc target_line b pc line) eqn:Hc; [|exact Hc].
    destruct b as [|code b].
    { unfold parse_cond in Hc. cbn in Hc. rewrite andb_false_r in Hc. discriminate. }
    pose proof (parse_step_shorter code b pc line) as Hs.
    destruct (parse_step (code :: b) pc line) as [[b' pc'] line'].
    cbn [fst] in Hs. apply IH. cbn [length] in Hlen. lia.
Qed.

Lemma from_bytes_big_4 b0 b1 b2 b3 :
  from_bytes_big [b0; b1; b2; b3] = ((b0 * 256 + b1) * 256 + b2) * 256 + b3.
Proof. unfold from_bytes_big. cbn [rev app from_bytes_little]. lia. Qed.

(** C6, as the code has it. Opcode 0 followed by four bytes reads them as
    a big-endian unsigned 32-bit value, between 0 and 2^32 - 1, adds it to
    [line] and advances [pc] by one quantum. *)
Theorem parse_opcode0_unsigned (b0 b1 b2 b3 : Z) (rest : list Z) (pc line : Z)
    (Hbytes : Forall is_byte [b0; b1; b2; b3]) :
  let val := ((b0 * 256 + b1) * 256 + b2) * 256 + b3 in
  parse_step (0 :: b0 :: b1 :: b2 :: b3 :: rest) pc line
    = (rest, pc + OLD_QUANTUM, line + val)
  /\ 0 <= val < 2 ^ 32.
Proof.
  intros val. split.
  - unfold parse_step. cbn [Z.eqb].
    destruct (Z.ltb_spec (len (b0 :: b1 :: b2 :: b3 :: rest)) 4) as [Hlt|_].
    { rewrite !len_cons in Hlt. pose proof (len_nonneg rest). lia. }
    cbn [take drop]. rewrite from_bytes_big_4. reflexivity.
  - unfold is_byte in Hbytes.
    apply Forall_cons in Hbytes as [H0 Hbytes].
    apply Forall_cons in Hbytes as [H1 Hbytes].
    apply Forall_cons in Hbytes as [H2 Hbytes].
    apply Forall_cons in Hbytes as [H3 _].
    subst val. lia.
Qed.

Lemma parse_opcode0_unsigned_witness :
  parse_step [0; 255; 255; 255; 255; 7] 0 10 = ([7], 0 + OLD_QUANTUM, 10 + 4294967295)
  /\ 0 <= 4294967295 < 2 ^ 32.
Proof.
  apply (parse_opcode0_unsigned 255 255 255 255 [7] 0 10).
  repeat constructor; unfold is_byte; lia.
Defined.

(** C6, as stated, fails: on the four bytes FF the code adds 4294967295 to
    [line], the signed reading adds -1. *)
Lemma parse_opcode0_not_signed :
  parse_step [0; 255; 255; 255; 255] 0 10
    <> ([], 0 + OLD_QUANTUM, 10 + signed32 (from_bytes_big [255; 255; 255; 255])).
Proof. vm_compute. discriminate. Qed.

(** Opcode 0 with fewer than four bytes left: the rest of the buffer is
    dropped, [line] is kept and [pc] still advances. *)
Lemma parse_opcode0_short (rest : list Z) (pc line : Z) :
  (length rest < 4)%nat ->
  parse_step (0 :: rest) pc line = ([], pc + OLD_QUANTUM, line).
Proof.
  intros Hshort. unfold parse_step. cbn [Z.eqb].
  destruct (Z.ltb_spec (len rest) 4) as [_|Hge]; [reflexivity|].
  unfold len in Hge. lia.
Qed.

Lemma parse_loop_adds (ns : list Z) :
  forall fuel c pc line target_pc target_line,
  Forall (fun n => 1 <= n <= 64) ns ->
  129 <= c <= 255 ->
  (length ns < fuel)%nat ->
  pc + len ns <= target_pc ->
  (forall k, (k <= length ns)%nat -> line + zsum (take k ns) <> target_line) ->
  parse_loop fuel target_pc target_line (ns ++ [c]) pc line
    = ([], pc + OLD_QUANTUM * len ns + OLD_QUANTUM * (c - 128), line + zsum ns).
Proof.
  induction ns as [|n ns IH]; intros fuel c pc line tpc tl Hns Hc Hfuel Hpc Hline.
  - destruct fuel as [|fuel]; [cbn in Hfuel; lia|].
    cbn [parse_loop app]. unfold parse_cond.
    destruct (Z.leb_spec pc tpc) as [_|Hgt]; [|unfold len in Hpc; cbn in Hpc; lia].
    specialize (Hline 0%nat (Nat.le_refl _)). cbn in Hline.
    destruct (Z.eqb_spec line tl) as [Heq|_]; [lia|].
    cbn [negb andb len length Z.of_nat Z.ltb Z.compare].
    unfold parse_step.
    destruct (Z.eqb_spec c 0) as [?|_]; [lia|].
    destruct (Z.leb_spec c 64) as [?|_]; [lia|].
    destruct (Z.leb_spec c 128) as [?|_]; [lia|].
    replace (parse_loop fuel tpc tl [] (pc + OLD_QUANTUM * (c - 128)) line)
      with (@nil Z, pc + OLD_QUANTUM * (c - 128), line).
    + unfold zsum, len, OLD_QUANTUM. cbn. f_equal; [f_equal|]; lia.
    + destruct fuel; cbn [parse_loop]; [reflexivity|].
      unfold parse_cond. cbn. rewrite andb_false_r. reflexivity.
  - apply Forall_cons in Hns as [Hn Hns].
    destruct fuel as [|fuel]; [cbn in Hfuel; lia|].
    cbn [parse_loop app]. unfold parse_cond.
    rewrite len_cons in Hpc. pose proof (len_nonneg ns).
    destruct (Z.leb_spec pc tpc) as [_|Hgt]; [|lia].
    pose proof (Hline 0%nat (Nat.le_0_l _)) as H0. cbn in H0.
    destruct (Z.eqb_spec line tl) as [Heq|_]; [lia|].
    destruct (Z.ltb_spec 0 (len (n :: ns ++ [c]))) as [_|Hle].
    2:{ rewrite len_cons in Hle. pose proof (len_nonneg (ns ++ [c])). lia. }
    cbn [negb andb]. unfold parse_step.
    destruct (Z.eqb_spec n 0) as [?|_]; [lia|].
    destruct (Z.leb_spec n 64) as [_|?]; [|lia].
    rewrite IH; try assumption.
    + rewrite len_cons. unfold zsum, OLD_QUANTUM. cbn [foldr].
      f_equal; [f_equal|]; lia.
    + cbn [length] in Hfuel. lia.
    + unfold OLD_QUANTUM. lia.
    + intros k Hk. specialize (Hline (S k)). cbn [take length] in Hline.
      unfold zsum in *. cbn [foldr] in Hline.
      intros Heq. apply Hline; [lia|]. lia.
Qed.

(** C9, as the code has it. For [n] opcodes in 1..64 followed by one
    PC-advance opcode [c] in 129..255, parsed to the end of the buffer, the
    final line is the initial line plus the sum of the opcodes, and the
    final pc is the initial pc plus one quantum for each of the [n] opcodes
    plus [quantum * (c - 128)] for the PC-advance opcode. *)
Theorem parse_line_adds_pc_advance (ns : list Z) (c : Z) (lt : LineTable)
    (target_pc target_line : Z)
    (Hns : Forall (fun n => 1 <= n <= 64) ns)
    (Hc : 129 <= c <= 255)
    (Hdata : data lt = ns ++ [c])
    (Hpc : PC lt + len ns <= target_pc)
    (Hline : forall k, (k <= length ns)%nat ->
               line lt + zsum (take k ns) <> target_line) :
  parse lt target_pc target_line
    = ([], PC lt + OLD_QUANTUM * len ns + OLD_QUANTUM * (c - 128), line lt + zsum ns).
Proof.
  unfold parse. rewrite Hdata.
  apply parse_loop_adds; try assumption.
  rewrite length_app. cbn. lia.
Qed.

Lemma parse_line_adds_pc_advance_witness :
  parse (new_line_table [3; 64; 1; 130] 0x1000) 0x2000 (-1)
    = ([], 0x1000 + OLD_QUANTUM * 3 + OLD_QUANTUM * (130 - 128), 0 + 68).
Proof.
  apply (parse_line_adds_pc_advance [3; 64; 1] 130 (new_line_table [3; 64; 1; 130] 0x1000)).
  - repeat constructor; lia.
  - lia.
  - reflexivity.
  - vm_compute. discriminate.
  - intros k Hk. cbn [length] in Hk.
    assert (Hcases : k = 0%nat \/ k = 1%nat \/ k = 2%nat \/ k = 3%nat) by lia.
    destruct Hcases as [ -> | [ -> | [ -> | -> ] ] ]; vm_compute; discriminate.
Defined.

(** C9, as stated, fails: after the opcodes 1 and 130 the pc has advanced
    by 3, not by the quantum times the two opcodes consumed. *)
Lemma parse_pc_not_count :
  parse (new_line_table [1; 130] 0) 100 (-1)
    <> ([], 0 + OLD_QUANTUM * len [1; 130], 0 + zsum [1]).
Proof. vm_compute. discriminate. Qed.
End Classic.

(** ** The record reader *)
Section Reader.
Import Pclntab Symtab Spec Inputs.

Lemma slice_from_length {A} (l : list A) n : (length (slice_from l n) <= length l)%nat.
Proof. apply py_slice_length. Qed.

Lemma varint_loop_length p value shift :
  (length (varint_loop p value shift).1.1 <= length p)%nat.
Proof.
  revert value shift. induction p as [|p0 rest IH]; intros value shift; cbn [varint_loop].
  - cbn. lia.
  - destruct (negb _); [|cbn; lia].
    specialize (IH (Z.lor value (Z.land p0 (Z.shiftl 127 shift))) (shift + 7)).
    cbn [length]. lia.
Qed.

Lemma head_new_shorter w typ s p' :
  head_new w = Go (typ, s, p') -> (length p' < length (W.p w))%nat.
Proof.
  unfold head_new. destruct (W.p w) as [|p0 rest] eqn:Hp.
  { cbn. discriminate. }
  assert (Hidx : index (p0 :: rest) 0 = Go p0).
  { unfold index. rewrite getitem_nth; [reflexivity|].
    rewrite len_cons. pose proof (len_nonneg rest). lia. }
  rewrite Hidx. cbn [mbind flow_bind].
  change (drop 1 (p0 :: rest)) with rest.
  destruct (negb (Z.land p0 64 =? 0)).
  - destruct (len rest <? W.ptrsz w); cbn [mbind flow_bind]; [discriminate|].
    pose proof (slice_from_length rest (W.ptrsz w)) as H1.
    destruct (negb (Z.land p0 128 =? 0)).
    + destruct (len (slice_from rest (W.ptrsz w)) <? W.ptrsz w);
        cbn [mbind flow_bind]; [discriminate|].
      intros [= _ _ <-].
      pose proof (slice_from_length (slice_from rest (W.ptrsz w)) (W.ptrsz w)).
      cbn [length]. lia.
    + cbn [mbind flow_bind]. intros [= _ _ <-]. cbn [length]. lia.
  - pose proof (varint_loop_length rest 0 0) as Hv.
    destruct (varint_loop rest 0 0) as [[q value] shift]. cbn [fst] in Hv.
    destruct (len q =? 0); cbn [mbind flow_bind]; [discriminate|].
    destruct (index q 0) as [q0| |]; cbn [mbind flow_bind]; try discriminate.
    assert (Hd : (length (drop 1 q) <= length q)%nat) by (rewrite length_drop; lia).
    destruct (negb (Z.land p0 128 =? 0)).
    + destruct (len (drop 1 q) <? W.ptrsz w); cbn [mbind flow_bind]; [discriminate|].
      intros [= _ _ <-].
      pose proof (slice_from_length (drop 1 q) (W.ptrsz w)).
      cbn [length]. lia.
    + cbn [mbind flow_bind]. intros [= _ _ <-]. cbn [length]. lia.
Qed.

Lemma head_old_shorter w typ s p' :
  head_old w = Go (typ, s, p') -> (length p' < length (W.p w))%nat.
Proof.
  unfold head_old.
  destruct (Z.ltb_spec (len (W.p w)) 5) as [|Hlen]; [discriminate|].
  destruct (index (W.p w) 4) as [t| |]; cbn [mbind flow_bind]; try discriminate.
  destruct (Z.land t 128 =? 0); [discriminate|].
  intros [= _ _ <-]. rewrite length_drop. unfold len in Hlen. lia.
Qed.

(** Every record takes at least one byte. *)
Lemma walk_record_shorter w s w' :
  walk_record w = Go (s, w') -> (length (W.p w') < length (W.p w))%nat.
Proof.
  unfold walk_record.
  destruct (if W.new_table_format w then head_new w else head_old w)
    as [[[typ s1] p1]| |] eqn:Hhead; cbn [mbind flow_bind]; try discriminate.
  assert (Hp1 : (length p1 < length (W.p w))%nat).
  { destruct (W.new_table_format w);
      [eapply head_new_shorter | eapply head_old_shorter]; exact Hhead. }
  destruct (scan_nul p1 0 (W.i w) (W.nnul w)) as [i nnul].
  set (name_part := if in_bytes typ "Zz" then _ else _).
  assert (Hname : forall p2 i2 n2, name_part = Go (p2, i2, n2) ->
                    (length p2 <= length p1)%nat).
  { subst name_part. intros p2 i2 n2. destruct (in_bytes typ "Zz").
    - destruct i as [iv|]; cbn [local mbind flow_bind]; [|discriminate].
      destruct nnul as [nv|]; cbn [local mbind flow_bind]; [|discriminate].
      destruct (scan_nul2 _ _ _ _) as [[i3 n3]| |]; cbn [mbind flow_bind];
        try discriminate.
      intros [= <- _ _]. apply slice_from_length.
    - intros [= <- _ _]. lia. }
  destruct name_part as [[[p2 i2] n2]| |]; cbn [mbind flow_bind]; try discriminate.
  specialize (Hname p2 i2 n2 eq_refl).
  destruct i2 as [iv|]; cbn [local mbind flow_bind]; [|discriminate].
  destruct n2 as [nv|]; cbn [local mbind flow_bind]; [|discriminate].
  destruct (len p2 <? iv + nv); [discriminate|].
  pose proof (slice_from_length p2 (iv + nv)) as H3.
  destruct (negb (W.new_table_format w)).
  - destruct (len (slice_from p2 (iv + nv)) <? 4); cbn [mbind flow_bind]; [discriminate|].
    intros [= _ <-]. cbn [W.p]. rewrite length_drop. lia.
  - cbn [mbind flow_bind]. intros [= _ <-]. cbn [W.p]. lia.
Qed.

(** The fuel [walksymtab] gives its loop is enough. *)
Lemma walk_finishes fuel :
  forall w, (length (W.p w) <= fuel)%nat -> (walk fuel w).2 <> Unfinished.
Proof.
  induction fuel as [|fuel IH]; intros w Hlen; cbn [walk].
  - destruct (Z.ltb_spec (len (W.p w)) 4) as [_|Hge]; [discriminate|].
    unfold len in Hge. lia.
  - destruct (len (W.p w) <? 4); [discriminate|].
    destruct (walk_record w) as [[s w']| |] eqn:Hrec; try discriminate.
    apply walk_record_shorter in Hrec.
    specialize (IH w' ltac:(lia)).
    destruct (walk fuel w') as [l e]. exact IH.
Qed.

(** X15. The record reader always finishes: every record it decodes takes
    at least one byte of the buffer, so the buffer's length bounds the
    turns of its loop, and it ends by returning or by raising. *)
Lemma walksymtab_finishes data : (walksymtab data).2 <> Unfinished.
Proof.
  unfold walksymtab, walk_start.
  destruct (len data =? 0); [discriminate|].
  set (fmt := if startswith _ _ then _ else _).
  assert (Hfmt : (length fmt.1.1 <= length data)%nat).
  { subst fmt. repeat destruct (startswith _ _); cbn [fst]; try lia.
    apply slice_from_length. }
  destruct fmt as [[d order] ntf]. cbn [fst] in Hfmt.
  destruct ntf.
  - destruct (len d <? 8); [discriminate|].
    destruct (getitem d 7) as [ptrsz| |] eqn:Hget.
    + destruct (negb _); [discriminate|].
      apply walk_finishes. cbn [W.p].
      pose proof (slice_from_length d 8). lia.
    + discriminate.
    + unfold getitem in Hget. repeat destruct (_ && _) in Hget; try discriminate.
      destruct (d !! _) in Hget; discriminate.
  - apply walk_finishes. cbn [W.p]. exact Hfmt.
Qed.
(** Whatever follows a new-format magic and a pointer size other than 4
    and 8, the generator returns at once. *)
Lemma walksymtab_bad_ptrsz (magic : list Z) (ptrsz : Z) (rest : list Z) :
  magic = LITTLE_ENDIAN_SYMTAB \/ magic = BIG_ENDIAN_SYMTAB ->
  ptrsz <> 4 -> ptrsz <> 8 ->
  walksymtab (magic ++ ptrsz :: rest) = ([], Returned None).
Proof.
  intros Hmagic H4 H8. unfold walksymtab, walk_start.
  assert (Hlen : len (magic ++ ptrsz :: rest) = 8 + len rest).
  { rewrite len_app, len_cons.
    destruct Hmagic as [-> | ->]; change (len _ + ?x) with (7 + x); lia. }
  pose proof (len_nonneg rest) as Hrest.
  destruct (Z.eqb_spec (len (magic ++ ptrsz :: rest)) 0) as [?|_]; [lia|].
  rewrite slice_to_take by lia. change (Z.to_nat 7) with 7%nat.
  assert (Htake : take 7 (magic ++ ptrsz :: rest) = magic).
  { destruct Hmagic as [-> | ->]; reflexivity. }
  rewrite Htake.
  assert (Hget : getitem (magic ++ ptrsz :: rest) 7 = Ok ptrsz).
  { rewrite getitem_nth by lia. destruct Hmagic as [-> | ->]; reflexivity. }
  destruct Hmagic as [-> | ->].
  - change (startswith LITTLE_ENDIAN_SYMTAB OLD_LITTLE_ENDIAN_SYMTAB) with false.
    change (startswith LITTLE_ENDIAN_SYMTAB BIG_ENDIAN_SYMTAB) with false.
    change (startswith LITTLE_ENDIAN_SYMTAB LITTLE_ENDIAN_SYMTAB) with true.
    cbv iota beta.
    destruct (Z.ltb_spec (len (LITTLE_ENDIAN_SYMTAB ++ ptrsz :: rest)) 8) as [?|_]; [lia|].
    rewrite Hget.
    destruct (Z.eqb_spec ptrsz 4) as [?|_]; [contradiction|].
    destruct (Z.eqb_spec ptrsz 8) as [?|_]; [contradiction|].
    reflexivity.
  - change (startswith BIG_ENDIAN_SYMTAB OLD_LITTLE_ENDIAN_SYMTAB) with false.
    change (startswith BIG_ENDIAN_SYMTAB BIG_ENDIAN_SYMTAB) with true.
    cbv iota beta.
    destruct (Z.ltb_spec (len (BIG_ENDIAN_SYMTAB ++ ptrsz :: rest)) 8) as [?|_]; [lia|].
    rewrite Hget.
    destruct (Z.eqb_spec ptrsz 4) as [?|_]; [contradiction|].
    destruct (Z.eqb_spec ptrsz 8) as [?|_]; [contradiction|].
    reflexivity.
Qed.

(** C5, on the code. The value bytes 80 82 01 decode to 0x4080: the byte
    at index 1 contributes its bit 7 alone. Their little base-128 value is
    0x4100. *)
Theorem walksymtab_varint_not_base128 :
  walksymtab varint_symtab
    = ([Raw.mk 0x4080 (ord "T") (lit "a") 0],
       Returned (Some (Raw.mk 0x4080 (ord "T") (lit "a") 0)))
  /\ base128 [0x80; 0x82; 0x01] = 0x4100.
Proof. split; vm_compute; reflexivity. Qed.

(** C7, on the code. With a new-format magic and the pointer size 5 the
    generator returns: no record, no exception. *)
Theorem walksymtab_bad_ptrsz_returns :
  walksymtab ptrsz5_little = ([], Returned None)
  /\ walksymtab ptrsz5_big = ([], Returned None).
Proof. split; vm_compute; reflexivity. Qed.

(** C8, on the code. A buffer that ends inside a variable-width value ends
    the iteration without an exception; one that ends inside the name of
    its first record raises [UnboundLocalError]; one that ends inside the
    name of a later record yields that record with the name cut short. *)
Theorem walksymtab_truncated_no_decoding_error :
  walksymtab cut_varint_symtab = ([], Returned (Some (Raw.mk 0x80 (ord "T") [] 0)))
  /\ walksymtab cut_name_symtab = ([], Raised (UnboundLocalError "nnul"))
  /\ walksymtab cut_second_name_symtab
       = ([Raw.mk 1 (ord "T") (lit "a") 0; Raw.mk 2 (ord "T") (lit "bc") 0],
          Returned (Some (Raw.mk 2 (ord "T") (lit "bc") 0))).
Proof. repeat split; vm_compute; reflexivity. Qed.
End Reader.

(** ** The filename map *)
Section FileMap.
Import Pclntab Symtab Spec Inputs.

(** A state built by [go12_init] has the empty dict for [file_map], which
    [init_file_map] takes for a map already built. *)
Lemma go12_init_file_map (lt lt' : LineTable) (st : Go12State) :
  _go12 lt = None -> go12_init lt = Ok lt' -> _go12 lt' = Some st ->
  file_map st = Some ∅.
Proof.
  intros Hnone Hinit Hst. unfold go12_init in Hinit.
  destruct (bad_header (data lt)) as [bad| |]; cbn [mbind result_bind] in Hinit;
    try discriminate.
  destruct bad.
  { injection Hinit as <-. congruence. }
  destruct (getitem (data lt) 6) as [q| |] eqn:Hq;
    destruct (getitem (data lt) 7) as [ps| |] eqn:Hps;
    repeat match type of Hinit with
           | context [if ?c then _ else _] => destruct c
           end;
    cbn [mbind result_bind] in Hinit; try discriminate;
    injection Hinit as <-; cbn [_go12 set_go12] in Hst;
    try congruence; injection Hst as <-; reflexivity.
Qed.

Lemma go12_map_files_empty (st : Go12State) (m : gmap pystr nat) (o : nat) :
  file_map st = Some ∅ -> go12_map_files st m o = Ok (m, st).
Proof.
  intros Hfm. unfold go12_map_files, init_file_map. rewrite Hfm.
  cbn [mbind result_bind]. rewrite Hfm. rewrite map_fold_empty. reflexivity.
Qed.

(** C4, on the code. For a modern table whose file table has the two
    entries 0 and [a.go], the file map after [go12_map_files] is empty and
    no key is inserted, although ordinal 1 decodes to [a.go]. *)
Theorem go12_map_files_inserts_nothing :
  exists st lt,
    go12 (new_line_table files_pclntab 0) = Ok (Some st, lt)
    /\ nfiletab st = 2
    /\ fst <$> Go12State_string st (data lt) (u32 (binary st) (slice_from (filetab st) (4 * 1)))
         = Ok (lit "a.go")
    /\ go12_map_files st ∅ 0%nat = Ok (∅, st)
    /\ file_map st = Some ∅.
Proof.
  destruct (go12 (new_line_table files_pclntab 0)) as [[[st|] lt]| |] eqn:Hgo;
    try (vm_compute in Hgo; discriminate).
  exists st, lt. split; [reflexivity|].
  assert (Hst : st = mkGo12State [0; 0; 0; 0; 0; 0; 0; 0] [2; 0; 0; 0; 36; 0; 0; 0]
                      LITTLE_ENDIAN 1 8 0 2 (Some ∅) ∅
                /\ data lt = files_pclntab).
  { vm_compute in Hgo. injection Hgo as <- <-. split; reflexivity. }
  destruct Hst as [-> Hdata]. rewrite Hdata.
  repeat split; vm_compute; reflexivity.
Qed.
End FileMap.

(** ** The table builder *)
Section Builder.
Import Pclntab Symtab Spec Inputs.

Lemma scan_step fuel modern st st' :
  (L.i st < length (L.syms st))%nat ->
  scan_body modern st = Ok st' ->
  scan (S fuel) modern st = scan fuel modern st'.
Proof.
  intros Hi Hb. cbn [scan].
  destruct (Nat.ltb_spec (L.i st) (length (L.syms st))) as [_|?]; [|lia].
  rewrite Hb. reflexivity.
Qed.

Lemma scan_raise fuel modern st e :
  (L.i st < length (L.syms st))%nat ->
  scan_body modern st = Raise e ->
  scan (S fuel) modern st = Raise e.
Proof.
  intros Hi Hb. cbn [scan].
  destruct (Nat.ltb_spec (L.i st) (length (L.syms st))) as [_|?]; [|lia].
  rewrite Hb. reflexivity.
Qed.

Lemma scan_done fuel modern st :
  (length (L.syms st) <= L.i st)%nat -> scan fuel modern st = Ok st.
Proof.
  intros Hi.
  destruct fuel; cbn [scan];
    destruct (Nat.ltb_spec (L.i st) (length (L.syms st))) as [?|_]; (lia || reflexivity).
Qed.

(** In modern mode a function record that is the only record is scanned
    again and again: [end] is left at 0 by the empty [range], and [i] goes
    back to it. *)
Lemma scan_body_single_func (sy : Sym) funcs objs pcln s lastf (o : nat) e :
  in_bytes (type sy) "Zz" = false ->
  in_bytes (type sy) "TtLl" = true ->
  name sy <> lit "runtime.etext" -> name sy <> lit "etext" ->
  exists funcs' f',
    scan_body true (L.mk [sy] funcs objs pcln s 0 lastf (Some o) e)
    = Ok (L.mk [set_func f' sy] funcs' objs pcln s 0 lastf (Some o) (Some 0%nat)).
Proof.
  intros HZ HT Hn1 Hn2. unfold scan_body.
  cbn [L.i L.syms lookup list_lookup mbind result_bind].
  rewrite HZ, HT.
  rewrite (bool_decide_eq_false_2 _ Hn1), (bool_decide_eq_false_2 _ Hn2).
  cbn [orb drop for_end unbound mbind result_bind L.obj L.funcs L.pcln L.s L.objs
       L.lastf Nat.sub seq collect alter list_alter].
  eauto.
Qed.

Lemma scan_single_func_diverges (fuel : nat) :
  forall (sy : Sym) funcs objs pcln s lastf (o : nat) e,
  in_bytes (type sy) "Zz" = false ->
  in_bytes (type sy) "TtLl" = true ->
  name sy <> lit "runtime.etext" -> name sy <> lit "etext" ->
  scan fuel true (L.mk [sy] funcs objs pcln s 0 lastf (Some o) e) = OutOfFuel.
Proof.
  induction fuel as [|fuel IH]; intros sy funcs objs pcln s lastf o e HZ HT Hn1 Hn2.
  - reflexivity.
  - destruct (scan_body_single_func sy funcs objs pcln s lastf o e HZ HT Hn1 Hn2)
      as (funcs' & f' & Hb).
    erewrite scan_step; [ | cbn; lia | exact Hb].
    apply IH; destruct sy; assumption.
Qed.

(** In modern mode a path record that is the last of two records is
    scanned again and again: the empty [range] leaves [end] at 1. *)
Lemma scan_body_last_path (s0 s1 : Sym) funcs objs pcln s lastf (o : nat) :
  in_bytes (type s1) "Zz" = true ->
  exists objs' lastf' o',
    scan_body true (L.mk [s0; s1] funcs objs pcln s 1 lastf (Some o) (Some 1%nat))
    = Ok (L.mk [s0; s1] funcs objs' pcln s 1 lastf' (Some o') (Some 1%nat)).
Proof.
  intros HZ. unfold scan_body.
  cbn [L.i L.syms lookup list_lookup mbind result_bind].
  rewrite HZ.
  cbn [negb unbound mbind result_bind L.obj L.funcs L.pcln L.s L.objs L.lastf L.end_
       drop for_end].
  eauto.
Qed.

Lemma scan_last_path_diverges (fuel : nat) :
  forall (s0 s1 : Sym) funcs objs pcln s lastf (o : nat),
  in_bytes (type s1) "Zz" = true ->
  scan fuel true (L.mk [s0; s1] funcs objs pcln s 1 lastf (Some o) (Some 1%nat))
    = OutOfFuel.
Proof.
  induction fuel as [|fuel IH]; intros s0 s1 funcs objs pcln s lastf o HZ.
  - reflexivity.
  - destruct (scan_body_last_path s0 s1 funcs objs pcln s lastf o HZ)
      as (objs' & lastf' & o' & Hb).
    erewrite scan_step; [ | cbn; lia | exact Hb].
    apply IH, HZ.
Qed.

(** Without a modern line table [obj] stays unbound through the loop. *)
Lemma scan_body_classic_obj st st' :
  L.obj st = None -> scan_body false st = Ok st' -> L.obj st' = None.
Proof.
  intros Hobj. unfold scan_body. rewrite Hobj.
  destruct (L.syms st !! L.i st) as [sy|]; cbn [mbind result_bind]; [|discriminate].
  destruct (in_bytes (type sy) "Zz"); cbn [negb].
  { intros [= <-]. reflexivity. }
  destruct (in_bytes (type sy) "TtLl").
  2:{ intros [= <-]. reflexivity. }
  destruct (_ || _).
  { intros [= <-]. reflexivity. }
  destruct (for_end _ _ _ _); cbn [unbound mbind result_bind]; discriminate.
Qed.

Lemma scan_classic_obj fuel :
  forall st st', L.obj st = None -> scan fuel false st = Ok st' -> L.obj st' = None.
Proof.
  induction fuel as [|fuel IH]; intros st st' Hobj; cbn [scan];
    destruct (L.i st <? length (L.syms st))%nat.
  - discriminate.
  - intros [= <-]. exact Hobj.
  - destruct (scan_body false st) as [st1| |] eqn:Hb; cbn [mbind result_bind];
      try discriminate.
    apply IH. exact (scan_body_classic_obj st st1 Hobj Hb).
  - intros [= <-]. exact Hobj.
Qed.

(** X21. Without a modern line table [new_table] returns no table, whatever
    the symbol table: [obj] is read unbound at the latest after the loop. *)
Lemma new_table_classic_never_returns fuel symtab data text t :
  malformed_header data = true ->
  new_table fuel symtab (new_line_table data text) <> Ok t.
Proof.
  intros Hbad. unfold new_table, new_table_head, go12, new_line_table.
  cbn [checked_go12].
  destruct (go12_init_value (set_checked true (mkLineTable data text 0 false None)))
    as (g & -> & Hg).
  rewrite (Hg Hbad). cbn [mbind result_bind _go12 set_go12 set_checked].
  change (bool_decide (None <> None)) with false.
  destruct (walksymtab symtab) as [raws e].
  destruct (add_syms raws _) as [a| |]; cbn [mbind result_bind]; try discriminate.
  destruct (match e with Returned _ => _ | _ => _ end) as [s| |];
    cbn [mbind result_bind]; try discriminate.
  destruct (scan fuel false _) as [st| |] eqn:Hscan; cbn [mbind result_bind];
    try discriminate.
  apply scan_classic_obj in Hscan; [|reflexivity].
  unfold new_table_tail. cbn [andb mbind result_bind].
  rewrite Hscan. discriminate.
Qed.

Lemma new_table_classic_never_returns_witness :
  new_table 8 [] (new_line_table [1; 2; 3] 0) <> Ok (mkTable [] [] ∅ [] None).
Proof.
  apply (new_table_classic_never_returns 8 [] [1; 2; 3] 0 (mkTable [] [] ∅ [] None)).
  reflexivity.
Defined.

(** C10, on the code. Evaluating the [go12] property of a fresh line table
    never raises, whatever the buffer, and on a malformed header (too short,
    nonzero bytes at offsets 4 or 5, bad quantum, bad pointer size, magic in
    neither byte order) it returns with the modern state absent.  The caller
    does not fall back to classic decoding then: on the one record
    [main.main], [new_table] raises on its unbound variable [obj] before it
    slices the line table, and it returns no table. *)
Theorem go12_absent_no_classic_fallback (data : list Z) (text : Z) :
  (exists g lt, go12 (new_line_table data text) = Ok (g, lt))
  /\ (malformed_header data = true ->
      (exists lt, go12 (new_line_table data text) = Ok (None, lt))
      /\ forall fuel,
           new_table (S fuel) main_main_symtab (new_line_table data text)
             = Raise (UnboundLocalError "obj")).
Proof.
  destruct (go12_fresh_value data text) as (g & Hgo & Hbad).
  split; [eauto|].
  intros Hm. specialize (Hbad Hm). subst g.
  split; [eauto|].
  intros fuel. unfold new_table, new_table_head.
  rewrite Hgo. cbn [mbind result_bind].
  change (bool_decide (None <> None)) with false.
  run (walksymtab main_main_symtab).
  match goal with |- context [add_syms ?raws ?a] => run (add_syms raws a) end.
  cbn [mbind result_bind].
  erewrite scan_raise; [reflexivity | vm_compute; lia | vm_compute; reflexivity].
Qed.

Lemma go12_absent_no_classic_fallback_witness :
  malformed_header [0xFB; 0xFF; 0xFF; 0xFF; 0; 0; 3; 8; 0; 0; 0; 0; 0; 0; 0; 0] = true
  /\ (exists lt,
        go12 (new_line_table [0xFB; 0xFF; 0xFF; 0xFF; 0; 0; 3; 8; 0; 0; 0; 0; 0; 0; 0; 0]
                0x1000)
          = Ok (None, lt))
  /\ forall fuel,
       new_table (S fuel) main_main_symtab
         (new_line_table [0xFB; 0xFF; 0xFF; 0xFF; 0; 0; 3; 8; 0; 0; 0; 0; 0; 0; 0; 0]
            0x1000)
         = Raise (UnboundLocalError "obj").
Proof.
  split; [reflexivity|].
  apply (proj2 (go12_absent_no_classic_fallback
                  [0xFB; 0xFF; 0xFF; 0xFF; 0; 0; 3; 8; 0; 0; 0; 0; 0; 0; 0; 0] 0x1000)).
  reflexivity.
Defined.

(** C2, on the code. With a modern line table the loop of [new_table] does
    not end, whatever the fuel, when the last record is a function record
    (here the one record [main.main]: after a turn [i] is 0 again) and when
    a run of path records reaches the end (here two path records: [i]
    stays at 1). *)
Theorem new_table_scan_diverges (fuel : nat) :
  new_table fuel main_main_symtab (new_line_table modern_pclntab 0) = OutOfFuel
  /\ new_table fuel two_paths_symtab (new_line_table modern_pclntab 0) = OutOfFuel.
Proof.
  unfold new_table. split.
  - run (new_table_head main_main_symtab (new_line_table modern_pclntab 0)).
    cbn [mbind result_bind].
    rewrite scan_single_func_diverges;
      [reflexivity|reflexivity|reflexivity|discriminate|discriminate].
  - run (new_table_head two_paths_symtab (new_line_table modern_pclntab 0)).
    cbn [mbind result_bind].
    destruct fuel as [|fuel]; [reflexivity|].
    erewrite scan_step; [ | vm_compute; lia | vm_compute; reflexivity].
    rewrite scan_last_path_diverges; reflexivity.
Qed.

(** C1, on the code. With a line table that is not modern, [new_table]
    raises on the one record [main.main]: its variable [obj] is unbound. *)
Theorem new_table_main_main_raises (fuel : nat) :
  new_table (S fuel) main_main_symtab (new_line_table [] 0x1000)
    = Raise (UnboundLocalError "obj").
Proof.
  unfold new_table.
  run (new_table_head main_main_symtab (new_line_table [] 0x1000)).
  cbn [mbind result_bind].
  erewrite scan_raise; [reflexivity | vm_compute; lia | vm_compute; reflexivity].
Qed.

(** C3, on the code. With a modern line table a path record starts a
    second [Obj] and becomes its path list; with a line table that is not
    modern the path record is stepped over, and [new_table] raises. *)
Theorem new_table_path_records_inverted (fuel : nat) :
  (exists t,
     new_table (2 + fuel) path_symtab (new_line_table modern_pclntab 0) = Ok t
     /\ objs t = [mkObj [] None; mkObj [] (Some [0%nat])])
  /\ (forall pcln s,
        scan_body false
          (L.mk [mkSym 0 (ord "Z") [] 0 None; mkSym 0 (ord "D") (lit "x") 0 None]
             [] [Obj0] pcln s 0 0 None None)
        = Ok (L.mk [mkSym 0 (ord "Z") [] 0 None; mkSym 0 (ord "D") (lit "x") 0 None]
                [] [Obj0] pcln s 1 0 None None))
  /\ new_table (2 + fuel) path_symtab (new_line_table [] 0)
       = Raise (UnboundLocalError "obj").
Proof.
  split; [|split].
  - unfold new_table.
    run (new_table_head path_symtab (new_line_table modern_pclntab 0)).
    cbn [mbind result_bind Nat.add].
    erewrite scan_step; [ | vm_compute; lia | vm_compute; reflexivity].
    erewrite scan_step; [ | vm_compute; lia | vm_compute; reflexivity].
    rewrite scan_done by (vm_compute; lia).
    cbn [mbind result_bind].
    eexists. split; [vm_compute; reflexivity | reflexivity].
  - intros pcln s. reflexivity.
  - unfold new_table.
    run (new_table_head path_symtab (new_line_table [] 0)).
    cbn [mbind result_bind Nat.add].
    erewrite scan_step; [ | vm_compute; lia | vm_compute; reflexivity].
    erewrite scan_step; [ | vm_compute; lia | vm_compute; reflexivity].
    rewrite scan_done by (vm_compute; lia).
    vm_compute. reflexivity.
Qed.
End Builder.

(** ** Fixed-width integers *)
Section Bytes.
Import Pclntab Spec.

Lemma from_bytes_little_app b1 b2 :
  from_bytes_little (b1 ++ b2)
    = from_bytes_little b1 + 256 ^ len b1 * from_bytes_little b2.
Proof.
  induction b1 as [|x b1 IH]; cbn [app from_bytes_little].
  - change (len []) with 0. lia.
  - rewrite IH, len_cons.
    rewrite Z.pow_add_r by (pose proof (len_nonneg b1); lia). lia.
Qed.

Lemma from_bytes_little_bound b :
  Forall is_byte b -> 0 <= from_bytes_little b < 256 ^ len b.
Proof.
  induction 1 as [|x b Hx Hb IH]; cbn [from_bytes_little].
  - change (len []) with 0. lia.
  - rewrite len_cons. unfold is_byte in Hx.
    rewrite Z.pow_add_r by (pose proof (len_nonneg b); lia). lia.
Qed.

Lemma digits_little_length n i : length (digits_little n i) = n.
Proof. revert i. induction n as [|n IH]; intros i; cbn; [|rewrite IH]; reflexivity. Qed.

Lemma digits_little_bytes n i : Forall is_byte (digits_little n i).
Proof.
  revert i. induction n as [|n IH]; intros i; cbn [digits_little]; constructor.
  - unfold is_byte. apply Z.mod_pos_bound. lia.
  - apply IH.
Qed.

Lemma from_bytes_digits n i :
  0 <= i < 256 ^ Z.of_nat n -> from_bytes_little (digits_little n i) = i.
Proof.
  revert i. induction n as [|n IH]; intros i Hi; cbn [digits_little from_bytes_little].
  - change (256 ^ Z.of_nat 0) with 1 in Hi. lia.
  - rewrite IH.
    + pose proof (Z.div_mod i 256). lia.
    + rewrite Nat2Z.inj_succ, Z.pow_succ_r in Hi by lia.
      split; [apply Z.div_pos; lia|].
      apply Z.div_lt_upper_bound; lia.
Qed.

Lemma digits_from_bytes b :
  Forall is_byte b -> digits_little (length b) (from_bytes_little b) = b.
Proof.
  induction 1 as [|x b Hx Hb IH]; cbn [length digits_little from_bytes_little].
  - reflexivity.
  - unfold is_byte in Hx.
    replace (x + 256 * from_bytes_little b) with (x + from_bytes_little b * 256) by lia.
    rewrite Z_mod_plus_full, Z_div_plus_full by lia.
    rewrite Z.mod_small, Z.div_small by lia.
    rewrite Z.add_0_l, IH. reflexivity.
Qed.

Lemma from_bytes_bound (o : ByteOrder) (b : list Z) :
  Forall is_byte b -> 0 <= from_bytes o b < 256 ^ len b.
Proof.
  intros Hb. destruct o; cbn [from_bytes]; unfold from_bytes_big.
  - apply from_bytes_little_bound, Hb.
  - replace (len b) with (len (rev b)) by (unfold len; rewrite length_rev; reflexivity).
    apply from_bytes_little_bound, Forall_rev, Hb.
Qed.

(** X1. An integer that fits in [n] bytes is written over exactly [n]
    bytes, each in 0..255, and read back by [from_bytes] in the same byte
    order. *)
Theorem from_bytes_to_bytes (o : ByteOrder) (i n : Z)
    (Hn : 0 <= n) (Hi : 0 <= i < 256 ^ n) :
  exists b, to_bytes o i n = inr b
    /\ len b = n /\ Forall is_byte b /\ from_bytes o b = i.
Proof.
  unfold to_bytes.
  destruct (Z.ltb_spec n 0) as [?|_]; [lia|].
  destruct (Z.ltb_spec i 0) as [?|_]; [lia|].
  destruct (Z.leb_spec (256 ^ n) i) as [?|_]; [lia|].
  eexists. split; [reflexivity|].
  assert (Hfit : 0 <= i < 256 ^ Z.of_nat (Z.to_nat n)) by (rewrite Z2Nat.id; lia).
  destruct o; cbn [from_bytes]; unfold from_bytes_big, len;
    rewrite ?length_rev, ?rev_involutive, digits_little_length, Z2Nat.id by lia;
    repeat split; try apply from_bytes_digits; try assumption.
  - apply digits_little_bytes.
  - apply Forall_rev, digits_little_bytes.
Qed.

Lemma from_bytes_to_bytes_witness :
  exists b, to_bytes BIG_ENDIAN 0x1000 4 = inr b
    /\ len b = 4 /\ Forall is_byte b /\ from_bytes BIG_ENDIAN b = 0x1000.
Proof. apply (from_bytes_to_bytes BIG_ENDIAN 0x1000 4); lia. Defined.

(** X2. A buffer of bytes is read by [from_bytes] as an integer between 0
    and 256^length - 1, and writing that integer over the same length in
    the same byte order gives the buffer back. *)
Theorem to_bytes_from_bytes (o : ByteOrder) (b : list Z) (Hb : Forall is_byte b) :
  0 <= from_bytes o b < 256 ^ len b
  /\ to_bytes o (from_bytes o b) (len b) = inr b.
Proof.
  assert (Hrange : 0 <= from_bytes o b < 256 ^ len b) by apply from_bytes_bound, Hb.
  split; [exact Hrange|].
  unfold to_bytes. pose proof (len_nonneg b).
  destruct (Z.ltb_spec (len b) 0) as [?|_]; [lia|].
  destruct (Z.ltb_spec (from_bytes o b) 0) as [?|_]; [lia|].
  destruct (Z.leb_spec (256 ^ len b) (from_bytes o b)) as [?|_]; [lia|].
  f_equal. unfold len. rewrite Nat2Z.id.
  destruct o; cbn [from_bytes]; unfold from_bytes_big.
  - apply digits_from_bytes, Hb.
  - rewrite <- (length_rev b), digits_from_bytes by apply Forall_rev, Hb.
    apply rev_involutive.
Qed.

Lemma to_bytes_from_bytes_witness :
  0 <= from_bytes LITTLE_ENDIAN [0xFB; 0xFF; 0xFF; 0xFF] < 256 ^ len [0xFB; 0xFF; 0xFF; 0xFF]
  /\ to_bytes LITTLE_ENDIAN (from_bytes LITTLE_ENDIAN [0xFB; 0xFF; 0xFF; 0xFF])
       (len [0xFB; 0xFF; 0xFF; 0xFF]) = inr [0xFB; 0xFF; 0xFF; 0xFF].
Proof.
  apply (to_bytes_from_bytes LITTLE_ENDIAN [0xFB; 0xFF; 0xFF; 0xFF]).
  repeat constructor; unfold is_byte; lia.
Defined.

(** X3. [u32] reads the first four bytes and nothing after them: two
    buffers with the same first four bytes (the same bytes, when there are
    fewer) give the same value; on [b0 b1 b2 b3 ...] the value is the four
    bytes in the byte order; on a buffer of bytes it is below 2^32. *)
Theorem u32_first_four (o : ByteOrder) (b : list Z) (Hb : Forall is_byte b) :
  0 <= u32 o b < 2 ^ 32
  /\ (forall b', take 4 b' = take 4 b -> u32 o b' = u32 o b)
  /\ (forall b0 b1 b2 b3 rest, b = b0 :: b1 :: b2 :: b3 :: rest ->
        u32 o b = match o with
                  | LITTLE_ENDIAN => b0 + 2 ^ 8 * b1 + 2 ^ 16 * b2 + 2 ^ 24 * b3
                  | BIG_ENDIAN => 2 ^ 24 * b0 + 2 ^ 16 * b1 + 2 ^ 8 * b2 + b3
                  end).
Proof.
  assert (Hu : forall l, u32 o l = from_bytes o (take 4 l)).
  { intros l. unfold u32. rewrite slice_to_take by lia. reflexivity. }
  split; [|split].
  - rewrite Hu.
    assert (Ht : Forall is_byte (take 4 b)) by (apply Forall_take, Hb).
    pose proof (from_bytes_bound o (take 4 b) Ht) as Hr.
    assert (Hl : len (take 4 b) <= 4).
    { unfold len. rewrite length_take. lia. }
    assert (256 ^ len (take 4 b) <= 256 ^ 4).
    { apply Z.pow_le_mono_r; [lia|exact Hl]. }
    change (2 ^ 32) with (256 ^ 4). lia.
  - intros b' Hsame. rewrite !Hu, Hsame. reflexivity.
  - intros b0 b1 b2 b3 rest ->. rewrite Hu.
    change (take 4 (b0 :: b1 :: b2 :: b3 :: rest)) with [b0; b1; b2; b3].
    destruct o; cbn [from_bytes]; unfold from_bytes_big;
      cbn [rev app from_bytes_little]; lia.
Qed.

Lemma u32_first_four_witness :
  0 <= u32 BIG_ENDIAN [0xFF; 0xFF; 0xFF; 0xFB; 0; 0] < 2 ^ 32
  /\ (forall b', take 4 b' = take 4 [0xFF; 0xFF; 0xFF; 0xFB; 0; 0] ->
        u32 BIG_ENDIAN b' = u32 BIG_ENDIAN [0xFF; 0xFF; 0xFF; 0xFB; 0; 0])
  /\ (forall b0 b1 b2 b3 rest,
        [0xFF; 0xFF; 0xFF; 0xFB; 0; 0] = b0 :: b1 :: b2 :: b3 :: rest ->
        u32 BIG_ENDIAN [0xFF; 0xFF; 0xFF; 0xFB; 0; 0]
          = 2 ^ 24 * b0 + 2 ^ 16 * b1 + 2 ^ 8 * b2 + b3).
Proof.
  apply (u32_first_four BIG_ENDIAN [0xFF; 0xFF; 0xFF; 0xFB; 0; 0]).
  repeat constructor; unfold is_byte; lia.
Defined.
End Bytes.

(** ** The string cache and the file map *)
Section Strings.
Import Pclntab Spec.

Lemma py_slice_take_drop {A} (l : list A) lo hi :
  0 <= lo <= hi ->
  py_slice l lo hi = take (Z.to_nat (hi - lo)) (drop (Z.to_nat lo) l).
Proof.
  intros Hr. unfold py_slice, adjust_index. pose proof (len_nonneg l) as Hl.
  destruct (Z.ltb_spec lo 0) as [?|_]; [lia|].
  destruct (Z.ltb_spec hi 0) as [?|_]; [lia|].
  destruct (Z.le_ge_cases lo (len l)) as [Hlo|Hlo].
  - rewrite (Z.min_l lo) by lia.
    destruct (Z.le_ge_cases hi (len l)) as [Hhi|Hhi].
    + rewrite Z.min_l by lia. reflexivity.
    + rewrite Z.min_r by lia.
      rewrite !take_ge; [reflexivity| |]; rewrite length_drop; unfold len in *; lia.
  - rewrite (Z.min_r lo) by lia. rewrite (Z.min_r hi) by lia.
    rewrite !drop_ge by (unfold len in *; lia).
    rewrite !take_nil. reflexivity.
Qed.

Lemma utf8_ascii (bs : list Z) :
  Forall (fun b => 0 <= b < 128) bs -> utf8 bs = Some bs.
Proof.
  induction 1 as [|b bs Hb _ IH]; [reflexivity|].
  cbn [utf8].
  destruct (Z.leb_spec 0 b) as [_|?]; [|lia].
  destruct (Z.ltb_spec b 128) as [_|?]; [|lia].
  cbn [andb]. rewrite IH. reflexivity.
Qed.

Lemma strlen_name (name rest : list Z) :
  Forall (fun b => b <> 0) name ->
  strlen name = len name /\ strlen (name ++ 0 :: rest) = len name.
Proof.
  induction 1 as [|b name Hb _ [IH1 IH2]]; [split; reflexivity|].
  cbn [app strlen]. rewrite len_cons.
  destruct (Z.eqb_spec b 0) as [?|_]; [contradiction|].
  rewrite IH1, IH2. split; reflexivity.
Qed.

(** X4. Decoding is memoized by offset: once [string] has returned for an
    offset, asking again for that offset returns the same string and
    leaves the state as it is, whatever buffer is passed. *)
Theorem string_memoized (st st' : Go12State) (data data' : list Z) (off : Z)
    (res : list Z)
    (Hfirst : Go12State_string st data off = Ok (res, st')) :
  Go12State_string st' data' off = Ok (res, st').
Proof.
  unfold Go12State_string in *.
  destruct (strings st !! off) as [r|] eqn:Hhit.
  - injection Hfirst as <- <-. rewrite Hhit. reflexivity.
  - destruct (decode _) as [r| |]; cbn [mbind result_bind] in Hfirst; try discriminate.
    injection Hfirst as <- <-. cbn [strings set_strings].
    rewrite lookup_insert_eq. reflexivity.
Qed.

Lemma string_memoized_witness :
  Go12State_string
    (mkGo12State [] [] LITTLE_ENDIAN 1 8 0 0 (Some ∅) (<[2 := lit "go"]> ∅))
    [] 2
  = Ok (lit "go",
        mkGo12State [] [] LITTLE_ENDIAN 1 8 0 0 (Some ∅) (<[2 := lit "go"]> ∅)).
Proof.
  apply (string_memoized
           (mkGo12State [] [] LITTLE_ENDIAN 1 8 0 0 (Some ∅) ∅)
           _ (lit "xxgo") [] 2 (lit "go")).
  vm_compute. reflexivity.
Defined.

(** X5. [string] only ever adds to the cache: after a call every offset
    cached before is cached with the same string, and no other field of
    the state has changed. *)
Theorem string_cache_grows (st st' : Go12State) (data : list Z) (off : Z)
    (res : list Z)
    (Hcall : Go12State_string st data off = Ok (res, st')) :
  strings st ⊆ strings st'
  /\ strings st' !! off = Some res
  /\ set_strings (strings st) st' = st.
Proof.
  unfold Go12State_string in Hcall.
  destruct (strings st !! off) as [r|] eqn:Hhit.
  - injection Hcall as <- <-.
    split; [reflexivity|]. split; [assumption|]. destruct st; reflexivity.
  - destruct (decode _) as [r| |]; cbn [mbind result_bind] in Hcall; try discriminate.
    injection Hcall as <- <-. cbn [strings set_strings]. repeat split.
    + apply insert_subseteq, Hhit.
    + apply lookup_insert_eq.
    + destruct st; reflexivity.
Qed.

Lemma string_cache_grows_witness :
  let st := mkGo12State [] [] LITTLE_ENDIAN 1 8 0 0 (Some ∅) (<[7 := lit "a"]> ∅) in
  let st' := mkGo12State [] [] LITTLE_ENDIAN 1 8 0 0 (Some ∅)
               (<[2 := lit "go"]> (<[7 := lit "a"]> ∅)) in
  strings st ⊆ strings st'
  /\ strings st' !! 2 = Some (lit "go")
  /\ set_strings (strings st) st' = st.
Proof.
  apply (string_cache_grows _ _ (lit "xxgo") 2 (lit "go")).
  vm_compute. reflexivity.
Defined.

(** X6. An offset at or past the end of the buffer, not yet cached,
    decodes to the empty string without an error, and the empty string is
    cached for it. *)
Theorem string_past_end (st : Go12State) (data : list Z) (off : Z)
    (Hmiss : strings st !! off = None) (Hoff : len data <= off) :
  Go12State_string st data off
    = Ok ([], set_strings (<[off := []]> (strings st)) st).
Proof.
  unfold Go12State_string. rewrite Hmiss.
  pose proof (len_nonneg data).
  rewrite slice_from_drop by lia.
  rewrite drop_ge by (unfold len in *; lia). cbn [strlen].
  rewrite py_slice_take_drop by lia.
  rewrite drop_ge by (unfold len in *; lia). rewrite take_nil.
  reflexivity.
Qed.

Lemma string_past_end_witness :
  Go12State_string (mkGo12State [] [] LITTLE_ENDIAN 1 8 0 0 (Some ∅) ∅) [1; 2] 5
  = Ok ([], set_strings (<[5 := []]> ∅)
              (mkGo12State [] [] LITTLE_ENDIAN 1 8 0 0 (Some ∅) ∅)).
Proof.
  apply (string_past_end (mkGo12State [] [] LITTLE_ENDIAN 1 8 0 0 (Some ∅) ∅) [1; 2] 5).
  - reflexivity.
  - vm_compute. discriminate.
Defined.

(** X7. At an offset not yet cached, [string] returns the ASCII bytes from
    that offset up to the first NUL, or up to the end of the buffer when no
    NUL follows. *)
Theorem string_reads_name (st : Go12State) (pre name tail : list Z)
    (Hmiss : strings st !! len pre = None)
    (Hname : Forall (fun b => 0 < b < 128) name)
    (Htail : tail = [] \/ exists rest, tail = 0 :: rest) :
  Go12State_string st (pre ++ name ++ tail) (len pre)
    = Ok (name, set_strings (<[len pre := name]> (strings st)) st).
Proof.
  unfold Go12State_string. rewrite Hmiss.
  pose proof (len_nonneg pre). pose proof (len_nonneg name).
  assert (Hnz : Forall (fun b => b <> 0) name).
  { eapply Forall_impl; [exact Hname|]. cbn. lia. }
  assert (Hascii : Forall (fun b => 0 <= b < 128) name).
  { eapply Forall_impl; [exact Hname|]. cbn. lia. }
  rewrite slice_from_drop by lia.
  replace (Z.to_nat (len pre)) with (length pre) by (unfold len; lia).
  rewrite drop_app_length.
  assert (Hlen : strlen (name ++ tail) = len name).
  { destruct Htail as [-> | [rest ->]].
    - rewrite app_nil_r. apply (strlen_name name []), Hnz.
    - apply strlen_name, Hnz. }
  rewrite Hlen.
  rewrite py_slice_take_drop by lia.
  replace (len pre + len name - len pre) with (len name) by lia.
  replace (Z.to_nat (len pre)) with (length pre) by (unfold len; lia).
  replace (Z.to_nat (len name)) with (length name) by (unfold len; lia).
  rewrite drop_app_length, take_app_length.
  unfold decode. rewrite utf8_ascii by exact Hascii. reflexivity.
Qed.

Lemma string_reads_name_witness :
  Go12State_string (mkGo12State [] [] LITTLE_ENDIAN 1 8 0 0 (Some ∅) ∅)
    ([9; 9] ++ lit "a.go" ++ [0; 7]) (len [9; 9])
  = Ok (lit "a.go",
        set_strings (<[len [9; 9] := lit "a.go"]> ∅)
          (mkGo12State [] [] LITTLE_ENDIAN 1 8 0 0 (Some ∅) ∅)).
Proof.
  apply (string_reads_name (mkGo12State [] [] LITTLE_ENDIAN 1 8 0 0 (Some ∅) ∅)
           [9; 9] (lit "a.go") [0; 7]).
  - reflexivity.
  - repeat constructor; vm_compute; reflexivity.
  - right. exists [7]. reflexivity.
Defined.

(** X8. [go12_map_files] maps every file name of the file map to [obj] and
    leaves every other key of [m] as it was; the state is not changed. *)
Theorem go12_map_files_lookup (st : Go12State) (fm : gmap (list Z) Z)
    (m : gmap (list Z) nat) (obj : nat)
    (Hfm : file_map st = Some fm) :
  exists m', go12_map_files st m obj = Ok (m', st)
    /\ forall k, m' !! k = match fm !! k with
                           | Some _ => Some obj
                           | None => m !! k
                           end.
Proof.
  unfold go12_map_files, init_file_map. rewrite Hfm.
  cbn [mbind result_bind]. rewrite Hfm.
  eexists. split; [reflexivity|].
  apply (map_fold_weak_ind
           (fun (r : gmap (list Z) nat) (fm : gmap (list Z) Z) =>
              forall k, r !! k = match fm !! k with
                                 | Some _ => Some obj
                                 | None => m !! k
                                 end)).
  - intros k. rewrite lookup_empty. reflexivity.
  - intros i x fm' r Hi IH k.
    destruct (decide (i = k)) as [->|Hne].
    + rewrite !lookup_insert_eq. reflexivity.
    + rewrite !lookup_insert_ne by assumption. apply IH.
Qed.

Lemma go12_map_files_lookup_witness :
  exists m',
    go12_map_files
      (mkGo12State [] [] LITTLE_ENDIAN 1 8 0 2 (Some (<[lit "a.go" := 1]> ∅)) ∅)
      (<[lit "b.go" := 3%nat]> ∅) 0%nat
    = Ok (m', mkGo12State [] [] LITTLE_ENDIAN 1 8 0 2 (Some (<[lit "a.go" := 1]> ∅)) ∅)
    /\ forall k, m' !! k
         = match (<[lit "a.go" := 1]> ∅ : gmap (list Z) Z) !! k with
           | Some _ => Some 0%nat
           | None => (<[lit "b.go" := 3%nat]> ∅ : gmap (list Z) nat) !! k
           end.
Proof.
  apply (go12_map_files_lookup
           (mkGo12State [] [] LITTLE_ENDIAN 1 8 0 2 (Some (<[lit "a.go" := 1]> ∅)) ∅)
           (<[lit "a.go" := 1]> ∅)).
  reflexivity.
Defined.

(** X9. Building the file map twice is building it once: when
    [init_file_map] returns, a second call returns the same state. *)
Theorem init_file_map_idempotent (st st' : Go12State)
    (Hinit : init_file_map st = Ok st') :
  init_file_map st' = Ok st'.
Proof.
  unfold init_file_map in *.
  destruct (file_map st) as [fm|] eqn:Hfm.
  - injection Hinit as <-. rewrite Hfm. reflexivity.
  - destruct (1 <? nfiletab st); [discriminate|].
    injection Hinit as <-. reflexivity.
Qed.

Lemma init_file_map_idempotent_witness :
  init_file_map (mkGo12State [] [] LITTLE_ENDIAN 1 8 0 1 (Some ∅) ∅)
  = Ok (mkGo12State [] [] LITTLE_ENDIAN 1 8 0 1 (Some ∅) ∅).
Proof.
  apply (init_file_map_idempotent (mkGo12State [] [] LITTLE_ENDIAN 1 8 0 1 None ∅)).
  reflexivity.
Defined.
End Strings.

(** ** The modern header, accepted *)
Section Go12More.
Import Pclntab Spec.

(** X10. A header that is not malformed is accepted: the state is present,
    its quantum and pointer size are the bytes at offsets 6 and 7 (one of
    1, 2, 4 and one of 4, 8), its caches are empty, and its byte order is
    little-endian whichever byte order the magic matched. *)
Theorem go12_accepts (data : list Z) (text : Z)
    (Hgood : malformed_header data = false) :
  exists st,
    go12 (new_line_table data text)
      = Ok (Some st, mkLineTable data text 0 true (Some st))
    /\ quantum st = nth 6 data 0 /\ ptrsize st = nth 7 data 0
    /\ (quantum st = 1 \/ quantum st = 2 \/ quantum st = 4)
    /\ (ptrsize st = 4 \/ ptrsize st = 8)
    /\ binary st = LITTLE_ENDIAN
    /\ file_map st = Some ∅ /\ strings st = ∅.
Proof.
  unfold malformed_header in Hgood.
  apply orb_false_elim in Hgood as [Hgood Hmagic].
  unfold go12, new_line_table. cbn [checked_go12].
  unfold go12_init. cbn [Pclntab.data set_checked PC line _go12].
  rewrite bad_header_value, Hgood. cbn [mbind result_bind].
  apply orb_false_elim in Hgood as [Hgood H7].
  apply orb_false_elim in Hgood as [Hgood H6].
  apply orb_false_elim in Hgood as [Hgood _].
  apply orb_false_elim in Hgood as [Hlen _].
  apply Z.ltb_ge in Hlen.
  rewrite !getitem_nth by lia.
  change (Z.to_nat 6) with 6%nat. change (Z.to_nat 7) with 7%nat.
  rewrite (slice_to_take data 4) by lia. change (Z.to_nat 4) with 4%nat.
  assert (Hq : nth 6 data 0 = 1 \/ nth 6 data 0 = 2 \/ nth 6 data 0 = 4).
  { apply negb_false_iff in H6. cbn [existsb] in H6.
    repeat (apply orb_true_iff in H6 as [H6|H6]); try discriminate;
      apply Z.eqb_eq in H6; lia. }
  assert (Hp : nth 7 data 0 = 4 \/ nth 7 data 0 = 8).
  { apply negb_false_iff in H7. cbn [existsb] in H7.
    repeat (apply orb_true_iff in H7 as [H7|H7]); try discriminate;
      apply Z.eqb_eq in H7; lia. }
  cbn [mbind result_bind].
  destruct (from_bytes_big (take 4 data) =? GO12_MAGIC) eqn:Hbig.
  { eexists. split; [reflexivity|]. cbn. auto 10. }
  destruct (from_bytes_little (take 4 data) =? GO12_MAGIC) eqn:Hlittle.
  { eexists. split; [reflexivity|]. cbn. auto 10. }
  discriminate Hmagic.
Qed.

Lemma go12_accepts_witness :
  exists st,
    go12 (new_line_table [0xFF; 0xFF; 0xFF; 0xFB; 0; 0; 4; 4; 0; 0; 0; 0; 0; 0; 0; 0] 0)
      = Ok (Some st,
            mkLineTable [0xFF; 0xFF; 0xFF; 0xFB; 0; 0; 4; 4; 0; 0; 0; 0; 0; 0; 0; 0]
              0 0 true (Some st))
    /\ quantum st = nth 6 [0xFF; 0xFF; 0xFF; 0xFB; 0; 0; 4; 4; 0; 0; 0; 0; 0; 0; 0; 0] 0
    /\ ptrsize st = nth 7 [0xFF; 0xFF; 0xFF; 0xFB; 0; 0; 4; 4; 0; 0; 0; 0; 0; 0; 0; 0] 0
    /\ (quantum st = 1 \/ quantum st = 2 \/ quantum st = 4)
    /\ (ptrsize st = 4 \/ ptrsize st = 8)
    /\ binary st = LITTLE_ENDIAN
    /\ file_map st = Some ∅ /\ strings st = ∅.
Proof.
  apply (go12_accepts [0xFF; 0xFF; 0xFF; 0xFB; 0; 0; 4; 4; 0; 0; 0; 0; 0; 0; 0; 0] 0).
  reflexivity.
Defined.


End Go12More.

(** ** The classic line table, as a cursor *)
Section ClassicMore.
Import Pclntab Spec.

(** X12. [parse] stops for one of three reasons only: on return the pc is
    past the target pc, or the line is the target line, or the buffer is
    used up. *)
Theorem parse_stops (lt : LineTable) (target_pc target_line : Z) :
  let '(b, pc, line) := parse lt target_pc target_line in
  target_pc < pc \/ line = target_line \/ b = [].
Proof.
  pose proof (parse_loop_exit (length (data lt)) target_pc target_line
                (data lt) (PC lt) (line lt) (Nat.le_refl _)) as Hexit.
  unfold parse. destruct (parse_loop _ _ _ _ _ _) as [[b pc] ln].
  unfold parse_cond in Hexit.
  destruct (Z.leb_spec pc target_pc) as [_|?]; [|lia].
  destruct (Z.eqb_spec ln target_line) as [?|_]; [auto|].
  cbn [negb andb] in Hexit. apply Z.ltb_ge in Hexit.
  right. right. destruct b; [reflexivity|].
  rewrite len_cons in Hexit. pose proof (len_nonneg b). lia.
Qed.

Lemma parse_step_pc_suffix b pc line :
  b <> [] ->
  pc <= (parse_step b pc line).1.2 /\ (parse_step b pc line).1.1 `suffix_of` b.
Proof.
  destruct b as [|code b]; [contradiction|]. intros _.
  unfold parse_step, OLD_QUANTUM.
  destruct (code =? 0).
  - destruct (len b <? 4); cbn [fst snd]; (split; [lia|]).
    + apply suffix_cons_r, suffix_nil.
    + apply suffix_cons_r, suffix_drop.
  - destruct (code <=? 64); [cbn; split; [lia|apply suffix_cons_r; reflexivity]|].
    destruct (Z.leb_spec code 128); cbn [fst snd];
      (split; [lia|apply suffix_cons_r; reflexivity]).
Qed.

Lemma parse_loop_pc_suffix fuel target_pc target_line :
  forall b pc line,
  let r := parse_loop fuel target_pc target_line b pc line in
  pc <= r.1.2 /\ r.1.1 `suffix_of` b.
Proof.
  induction fuel as [|fuel IH]; intros b pc line; cbn [parse_loop].
  - cbn. split; [lia|reflexivity].
  - destruct (parse_cond target_pc target_line b pc line) eqn:Hc.
    2:{ cbn. split; [lia|reflexivity]. }
    assert (Hb : b <> []).
    { intros ->. unfold parse_cond in Hc. cbn in Hc.
      rewrite andb_false_r in Hc. discriminate. }
    destruct (parse_step_pc_suffix b pc line Hb) as [Hpc Hsuf].
    destruct (parse_step b pc line) as [[b' pc'] line']. cbn [fst snd] in Hpc, Hsuf.
    specialize (IH b' pc' line'). cbn zeta in IH. destruct IH as [IH1 IH2].
    split; [lia|]. etransitivity; eassumption.
Qed.

(** X13. [parse] never moves the pc backwards and never reads outside its
    buffer: the pc returned is at least the pc of the line table, and the
    buffer returned is an end part of the line table's buffer. *)
Theorem parse_pc_suffix (lt : LineTable) (target_pc target_line : Z) :
  let '(b, pc, line) := parse lt target_pc target_line in
  PC lt <= pc /\ b `suffix_of` data lt.
Proof.
  pose proof (parse_loop_pc_suffix (length (data lt)) target_pc target_line
                (data lt) (PC lt) (line lt)) as H.
  unfold parse. destruct (parse_loop _ _ _ _ _ _) as [[b pc] ln]. exact H.
Qed.

(** With fuel for every byte, more fuel changes nothing. *)
Lemma parse_loop_fuel fuel1 :
  forall fuel2 target_pc target_line b pc line,
  (length b <= fuel1)%nat -> (length b <= fuel2)%nat ->
  parse_loop fuel1 target_pc target_line b pc line
    = parse_loop fuel2 target_pc target_line b pc line.
Proof.
  induction fuel1 as [|fuel1 IH]; intros fuel2 tpc tl b pc line H1 H2.
  - destruct b; [|cbn in H1; lia].
    destruct fuel2; cbn [parse_loop]; [reflexivity|].
    unfold parse_cond. cbn. rewrite andb_false_r. reflexivity.
  - destruct fuel2 as [|fuel2].
    + destruct b; [|cbn in H2; lia]. cbn [parse_loop].
      unfold parse_cond. cbn. rewrite andb_false_r. reflexivity.
    + cbn [parse_loop].
      destruct (parse_cond tpc tl b pc line) eqn:Hc; [|reflexivity].
      destruct b as [|code b].
      { unfold parse_cond in Hc. cbn in Hc. rewrite andb_false_r in Hc. discriminate. }
      pose proof (parse_step_shorter code b pc line) as Hs.
      destruct (parse_step (code :: b) pc line) as [[b' pc'] line'].
      cbn [fst] in Hs. cbn [length] in H1, H2. apply IH; lia.
Qed.

(** Fast-forwarding to [pc1] and from there to [pc2] is fast-forwarding to
    [pc2]. *)
Lemma parse_loop_compose fuel :
  forall pc1 pc2 target_line b pc line b' pc' line',
  pc1 <= pc2 -> (length b <= fuel)%nat ->
  parse_loop fuel pc1 target_line b pc line = (b', pc', line') ->
  parse_loop (length b') pc2 target_line b' pc' line'
    = parse_loop fuel pc2 target_line b pc line.
Proof.
  induction fuel as [|fuel IH];
    intros pc1 pc2 tl b pc line b' pc' line' Hle Hlen Hrun.
  - cbn [parse_loop] in Hrun. injection Hrun as <- <- <-.
    destruct b; [reflexivity|cbn in Hlen; lia].
  - cbn [parse_loop] in Hrun.
    destruct (parse_cond pc1 tl b pc line) eqn:Hc.
    + assert (Hc2 : parse_cond pc2 tl b pc line = true).
      { unfold parse_cond in *.
        apply andb_true_iff in Hc as [Hc Hb]. apply andb_true_iff in Hc as [Hpc Hl].
        rewrite Hl, Hb. apply Z.leb_le in Hpc.
        destruct (Z.leb_spec pc pc2); [reflexivity|lia]. }
      cbn [parse_loop]. rewrite Hc2.
      destruct b as [|code b].
      { unfold parse_cond in Hc. cbn in Hc. rewrite andb_false_r in Hc. discriminate. }
      pose proof (parse_step_shorter code b pc line) as Hs.
      destruct (parse_step (code :: b) pc line) as [[b1 p1] l1].
      cbn [fst] in Hs. cbn [length] in Hlen.
      eapply IH; [exact Hle|lia|exact Hrun].
    + injection Hrun as <- <- <-.
      apply parse_loop_fuel; [lia|exact Hlen].
Qed.

(** X14. Slices compose: for [pc1 <= pc2], slicing at [pc1] and slicing the
    result at [pc2] is slicing at [pc2]; so the functions of a program,
    visited in increasing address order, each get the cursor a direct
    slice of the whole table would give. *)
Theorem slice_slice (lt : LineTable) (pc1 pc2 : Z) (Hle : pc1 <= pc2) :
  slice (slice lt pc1) pc2 = slice lt pc2.
Proof.
  unfold slice at 2. unfold parse.
  destruct (parse_loop (length (data lt)) pc1 (-1) (data lt) (PC lt) (line lt))
    as [[b' pc'] line'] eqn:Hrun.
  unfold slice, parse. cbn [data PC line].
  rewrite (parse_loop_compose _ _ _ _ _ _ _ _ _ _ Hle (Nat.le_refl _) Hrun).
  reflexivity.
Qed.

Lemma slice_slice_witness :
  slice (slice (new_line_table [1; 130; 2; 131; 3] 0) 2) 5
    = slice (new_line_table [1; 130; 2; 131; 3] 0) 5.
Proof. apply (slice_slice (new_line_table [1; 130; 2; 131; 3] 0) 2 5). lia. Defined.

End ClassicMore.

(** ** The record reader on well-formed input *)
Section ReaderMore.
Import Pclntab Symtab Spec Layout.

Lemma land_128_small t : 0 <= t < 128 -> Z.land t 128 = 0.
Proof.
  intros Ht.
  rewrite <- (Z.mod_small t (2 ^ 7)) by (change (2 ^ 7) with 128; lia).
  rewrite <- Z.land_ones by lia.
  rewrite <- Z.land_assoc. change (Z.land (Z.ones 7) 128) with 0.
  apply Z.land_0_r.
Qed.

Lemma high_bit_set t : 0 <= t < 128 -> t + 128 = Z.lor t 128.
Proof.
  intros Ht. rewrite <- Z.lxor_lor by (apply land_128_small, Ht).
  apply Z.add_nocarry_lxor, land_128_small, Ht.
Qed.

Lemma high_bit_test t : 0 <= t < 128 -> Z.land (t + 128) 128 = 128.
Proof.
  intros Ht. rewrite high_bit_set by exact Ht.
  rewrite Z.land_lor_distr_l, land_128_small by exact Ht. reflexivity.
Qed.

Lemma high_bit_strip t : 0 <= t < 128 -> Z.land (t + 128) (Z.lnot 128) = t.
Proof.
  intros Ht. rewrite high_bit_set by exact Ht.
  rewrite Z.land_lor_distr_l. change (Z.land 128 (Z.lnot 128)) with 0.
  rewrite Z.lor_0_r.
  rewrite <- (Z.mod_small t (2 ^ 7)) at 1 by (change (2 ^ 7) with 128; lia).
  rewrite <- Z.land_ones by lia.
  rewrite <- Z.land_assoc. change (Z.land (Z.ones 7) (Z.lnot 128)) with (Z.ones 7).
  rewrite Z.land_ones by lia. apply Z.mod_small. change (2 ^ 7) with 128. lia.
Qed.

Lemma scan_nul_name (name tl : list Z) :
  Forall (fun b => b <> 0) name ->
  forall k i nnul,
  scan_nul (name ++ 0 :: tl) k i nnul = (Some (k + len name), Some 1).
Proof.
  induction 1 as [|b name Hb _ IH]; intros k i nnul; cbn [app scan_nul].
  - change (len []) with 0. rewrite Z.add_0_r. reflexivity.
  - destruct (Z.eqb_spec b 0) as [?|_]; [contradiction|].
    rewrite IH, len_cons. f_equal. f_equal. lia.
Qed.

Lemma from_bytes_digits4 v tl :
  0 <= v < 2 ^ 32 ->
  from_bytes_little (take 4 (digits_little 4 v ++ tl)) = v.
Proof.
  intros Hv. rewrite take_app_length' by (symmetry; apply digits_little_length).
  apply from_bytes_digits. exact Hv.
Qed.

(** One well-formed record of the old layout at the head of the buffer. *)
Lemma walk_record_old (r s0 : Raw.sym) (rest : list Z) (i nnul : option Z) :
  old_ok r ->
  walk_record (W.mk false LITTLE_ENDIAN 0 s0 (old_record r ++ rest) i nnul)
    = Go (r, W.mk false LITTLE_ENDIAN 0 r rest (Some (len (Raw.name r) + 1)) (Some 1)).
Proof.
  intros (Hv & Hg & Ht & HZ & Hname). destruct r as [v t name g].
  cbn [Raw.value Raw.typ Raw.name Raw.gotype] in *.
  unfold walk_record, head_old, old_record.
  cbn [W.new_table_format W.p W.s W.order W.i W.nnul Raw.value Raw.typ Raw.name Raw.gotype].
  set (body := name ++ 0 :: digits_little 4 g ++ rest).
  assert (Hp : (digits_little 4 v ++ [t + 128] ++ name ++ [0] ++ digits_little 4 g) ++ rest
               = digits_little 4 v ++ (t + 128) :: body).
  { subst body. rewrite <- !app_assoc. reflexivity. }
  rewrite Hp. clear Hp.
  pose proof (len_nonneg body) as Hbody. pose proof (len_nonneg name) as Hnm.
  pose proof (len_nonneg rest) as Hrest.
  assert (Hlen : len (digits_little 4 v ++ (t + 128) :: body) = 5 + len body).
  { rewrite len_app, len_cons. unfold len at 1. rewrite digits_little_length. lia. }
  rewrite py_slice_take_drop by lia.
  change (Z.to_nat (4 - 0)) with 4%nat. change (Z.to_nat 0) with 0%nat.
  rewrite drop_0. cbn [from_bytes]. rewrite from_bytes_digits4 by exact Hv.
  destruct (Z.ltb_spec (len (digits_little 4 v ++ (t + 128) :: body)) 5) as [?|_]; [lia|].
  assert (Hidx : index (digits_little 4 v ++ (t + 128) :: body) 4 = Go (t + 128)).
  { unfold index. rewrite getitem_nth by lia. reflexivity. }
  rewrite Hidx. cbn [mbind flow_bind].
  rewrite high_bit_test by exact Ht. cbn [Z.eqb].
  rewrite high_bit_strip by exact Ht.
  cbn [mbind flow_bind]. rewrite HZ.
  change (drop 5 (digits_little 4 v ++ (t + 128) :: body)) with body.
  subst body. rewrite scan_nul_name by exact Hname.
  cbn [local mbind flow_bind]. rewrite Z.add_0_l.
  set (tl := digits_little 4 g ++ rest).
  assert (Htl : len tl = 4 + len rest).
  { subst tl. rewrite len_app. unfold len at 1. rewrite digits_little_length. lia. }
  destruct (Z.ltb_spec (len (name ++ 0 :: tl)) (len name + 1)) as [Hbad|_].
  { rewrite len_app, len_cons in Hbad. lia. }
  rewrite py_slice_take_drop by lia. rewrite Z.sub_0_r.
  change (Z.to_nat 0) with 0%nat. rewrite drop_0.
  replace (Z.to_nat (len name)) with (length name) by (unfold len; lia).
  rewrite take_app_length.
  rewrite slice_from_drop by lia.
  replace (Z.to_nat (len name + 1)) with (length name + 1)%nat by (unfold len; lia).
  rewrite <- drop_drop, drop_app_length.
  change (drop 1 (0 :: tl)) with tl. cbn [negb].
  destruct (Z.ltb_spec (len tl) 4) as [?|_]; [lia|].
  cbn [mbind flow_bind].
  rewrite slice_to_take by lia. change (Z.to_nat 4) with 4%nat.
  subst tl. cbn [from_bytes W.ptrsz]. rewrite from_bytes_digits4 by exact Hg.
  rewrite drop_app_length' by (symmetry; apply digits_little_length).
  reflexivity.
Qed.

Lemma old_record_length r : (10 <= length (old_record r))%nat.
Proof.
  unfold old_record. rewrite !length_app, !digits_little_length. cbn. lia.
Qed.

Lemma walk_old_records (rs : list Raw.sym) :
  Forall old_ok rs ->
  forall fuel s0 i nnul,
  (length rs <= fuel)%nat ->
  exists s,
    walk fuel (W.mk false LITTLE_ENDIAN 0 s0 (concat (old_record <$> rs)) i nnul)
      = (rs, Returned (Some s)).
Proof.
  induction 1 as [|r rs Hr _ IH]; intros fuel s0 i nnul Hfuel.
  - exists s0. destruct fuel; reflexivity.
  - destruct fuel as [|fuel]; [cbn in Hfuel; lia|].
    cbn [fmap list_fmap concat walk W.p].
    destruct (Z.ltb_spec (len (old_record r ++ concat (old_record <$> rs))) 4)
      as [Hshort|_].
    { unfold len in Hshort. rewrite length_app in Hshort.
      pose proof (old_record_length r). lia. }
    change (list_fmap _ _ old_record rs) with (old_record <$> rs).
    rewrite walk_record_old by exact Hr.
    destruct (IH fuel r (Some (len (Raw.name r) + 1)) (Some 1)) as [s ->];
      [cbn in Hfuel; lia|].
    exists s. reflexivity.
Qed.

(** X16. The old layout round-trips: after the old magic, any sequence of
    well-formed records (32-bit value and type descriptor, a 7-bit type
    other than a path type, a name without NUL) is yielded back record by
    record, in order, and the generator then returns normally. *)
Theorem walksymtab_old_records (rs : list Raw.sym) (Hok : Forall old_ok rs) :
  exists s,
    walksymtab (OLD_LITTLE_ENDIAN_SYMTAB ++ concat (old_record <$> rs))
      = (rs, Returned (Some s)).
Proof.
  unfold walksymtab, walk_start.
  set (body := concat (old_record <$> rs)).
  assert (Hlen : len (OLD_LITTLE_ENDIAN_SYMTAB ++ body) = 6 + len body).
  { rewrite len_app. reflexivity. }
  pose proof (len_nonneg body).
  destruct (Z.eqb_spec (len (OLD_LITTLE_ENDIAN_SYMTAB ++ body)) 0) as [?|_]; [lia|].
  rewrite slice_to_take by lia. change (Z.to_nat 7) with 7%nat.
  assert (Hmagic : startswith (take 7 (OLD_LITTLE_ENDIAN_SYMTAB ++ body))
                     OLD_LITTLE_ENDIAN_SYMTAB = true).
  { unfold startswith. apply bool_decide_eq_true_2.
    rewrite take_take. change (length OLD_LITTLE_ENDIAN_SYMTAB `min` 7)%nat with 6%nat.
    reflexivity. }
  rewrite Hmagic.
  rewrite slice_from_drop by lia. change (Z.to_nat 6) with 6%nat.
  change (drop 6 (OLD_LITTLE_ENDIAN_SYMTAB ++ body)) with body.
  subst body. apply walk_old_records; [exact Hok|].
  rewrite length_app.
  assert (Hn : forall l : list Raw.sym, (length l <= length (concat (old_record <$> l)))%nat).
  { induction l as [|r l IHl]; [reflexivity|].
    cbn [fmap list_fmap concat length]. rewrite length_app.
    pose proof (old_record_length r).
    change (list_fmap _ _ old_record l) with (old_record <$> l). lia. }
  specialize (Hn rs). lia.
Qed.

Lemma walksymtab_old_records_witness :
  exists s,
    walksymtab (OLD_LITTLE_ENDIAN_SYMTAB
                  ++ concat (old_record <$> [Raw.mk 0x1000 (ord "T") (lit "main.main") 0;
                                             Raw.mk 0x2000 (ord "D") (lit "x") 7]))
      = ([Raw.mk 0x1000 (ord "T") (lit "main.main") 0;
          Raw.mk 0x2000 (ord "D") (lit "x") 7],
         Returned (Some s)).
Proof.
  apply (walksymtab_old_records [Raw.mk 0x1000 (ord "T") (lit "main.main") 0;
                                 Raw.mk 0x2000 (ord "D") (lit "x") 7]).
  repeat constructor; cbn; try lia; try reflexivity; discriminate.
Defined.
End ReaderMore.

(** ** Short variable-width values *)
Section Varint.
Import Pclntab Symtab Spec.

Lemma land_127_small b : 0 <= b < 128 -> Z.land b 127 = b.
Proof.
  intros Hb. change 127 with (Z.ones 7). rewrite Z.land_ones by lia.
  apply Z.mod_small. change (2 ^ 7) with 128. lia.
Qed.

Lemma land_127_high b : 0 <= b < 128 -> Z.land (b + 128) 127 = b.
Proof.
  intros Hb. change 127 with (Z.ones 7). rewrite Z.land_ones by lia.
  change (2 ^ 7) with 128. replace (b + 128) with (b + 1 * 128) by lia.
  rewrite Z_mod_plus_full. apply Z.mod_small. lia.
Qed.

Lemma land_small_flag t n :
  0 <= n -> 0 <= t < 2 ^ n -> Z.land t (2 ^ n) = 0.
Proof.
  intros Hn Ht.
  rewrite <- (Z.mod_small t (2 ^ n)) by lia.
  rewrite <- Z.land_ones by lia. rewrite <- Z.land_assoc.
  replace (Z.land (Z.ones n) (2 ^ n)) with 0; [apply Z.land_0_r|].
  symmetry. rewrite Z.land_comm, Z.land_ones by lia. apply Z_mod_same_full.
Qed.

Lemma lor_shift7 b0 b1 :
  0 <= b0 < 128 -> Z.lor b0 (Z.shiftl b1 7) = b0 + b1 * 128.
Proof.
  intros Hb. rewrite Z.shiftl_mul_pow2 by lia. change (2 ^ 7) with 128.
  assert (Hdisj : Z.land b0 (b1 * 128) = 0).
  { rewrite <- (land_127_small b0) by exact Hb.
    rewrite <- Z.land_assoc. change 127 with (Z.ones 7).
    rewrite (Z.land_comm (Z.ones 7)), Z.land_ones by lia.
    change (2 ^ 7) with 128. rewrite Z_mod_mult. apply Z.land_0_r. }
  rewrite <- Z.lxor_lor by exact Hdisj.
  symmetry. apply Z.add_nocarry_lxor, Hdisj.
Qed.

(** X17. A variable-width value of one byte, or of two bytes, is decoded
    to its little base-128 value (so every value below 2^14 is read
    right); the record's type is the letter numbered by the low six bits
    of its first byte. *)
Theorem head_new_short_varint (w : W.t) (tb b0 b1 : Z) (vb rest : list Z)
    (Hp : W.p w = tb :: vb ++ rest)
    (Htb : 0 <= tb < 64) (Hb0 : 0 <= b0 < 128) (Hb1 : 0 <= b1 < 128)
    (Hvb : vb = [b1] \/ vb = [b0 + 128; b1]) :
  let typ := if tb <? 26 then tb + ord "A" else tb + (ord "a" - 26) in
  head_new w = Go (typ, Raw.set_value (base128 vb) (Raw.set_typ typ (W.s w)), rest).
Proof.
  intros typ. unfold head_new. rewrite Hp.
  assert (Hidx : index (tb :: vb ++ rest) 0 = Go tb).
  { unfold index. rewrite getitem_nth; [reflexivity|].
    rewrite len_cons. pose proof (len_nonneg (vb ++ rest)). lia. }
  rewrite Hidx. cbn [mbind flow_bind].
  change (drop 1 (tb :: vb ++ rest)) with (vb ++ rest).
  assert (H63 : Z.land tb 63 = tb).
  { change 63 with (Z.ones 6). rewrite Z.land_ones by lia.
    apply Z.mod_small. change (2 ^ 6) with 64. lia. }
  assert (H64 : Z.land tb 64 = 0) by (apply (land_small_flag tb 6); lia).
  assert (H128 : Z.land tb 128 = 0) by (apply (land_small_flag tb 7); lia).
  rewrite H63, H64, H128. cbn [Z.eqb negb]. fold typ.
  assert (Hlast : Z.land b1 128 = 0) by (apply (land_small_flag b1 7); lia).
  destruct Hvb as [-> | ->]; cbn [app varint_loop].
  - rewrite Hlast. cbn [Z.eqb negb].
    destruct (Z.eqb_spec (len (b1 :: rest)) 0) as [Hz|_].
    { rewrite len_cons in Hz. pose proof (len_nonneg rest). lia. }
    assert (Hi : index (b1 :: rest) 0 = Go b1).
    { unfold index. rewrite getitem_nth; [reflexivity|].
      rewrite len_cons. pose proof (len_nonneg rest). lia. }
    rewrite Hi. cbn [mbind flow_bind drop].
    unfold base128. cbn [base128_from].
    rewrite land_127_small by exact Hb1.
    cbn [Z.mul Z.shiftl Z.lor]. rewrite Z.shiftl_0_r, Z.add_0_r.
    reflexivity.
  - rewrite high_bit_test by exact Hb0.
    cbn [Z.eqb negb]. rewrite Hlast. cbn [Z.eqb negb].
    destruct (Z.eqb_spec (len (b1 :: rest)) 0) as [Hz|_].
    { rewrite len_cons in Hz. pose proof (len_nonneg rest). lia. }
    assert (Hi : index (b1 :: rest) 0 = Go b1).
    { unfold index. rewrite getitem_nth; [reflexivity|].
      rewrite len_cons. pose proof (len_nonneg rest). lia. }
    rewrite Hi. cbn [mbind flow_bind drop].
    unfold base128. cbn [base128_from].
    change (Z.shiftl 127 0) with 127. cbn [Z.lor].
    rewrite land_127_high by exact Hb0.
    rewrite land_127_small by exact Hb1.
    change (7 * 0) with 0. change (7 * (0 + 1)) with 7. change (0 + 7) with 7.
    rewrite Z.shiftl_0_r, Z.add_0_r, lor_shift7 by exact Hb0.
    rewrite Z.shiftl_mul_pow2 by lia. change (2 ^ 7) with 128.
    reflexivity.
Qed.

Lemma head_new_short_varint_witness :
  head_new (W.mk true LITTLE_ENDIAN 4 (Raw.mk 0 0 [] 0)
              ([0x13] ++ [0x81; 0x20] ++ lit "a" ++ [0]) None None)
  = Go (0x13 + ord "A",
        Raw.set_value (base128 [0x81; 0x20])
          (Raw.set_typ (0x13 + ord "A") (Raw.mk 0 0 [] 0)),
        lit "a" ++ [0]).
Proof.
  apply (head_new_short_varint
           (W.mk true LITTLE_ENDIAN 4 (Raw.mk 0 0 [] 0)
              ([0x13] ++ [0x81; 0x20] ++ lit "a" ++ [0]) None None)
           0x13 1 0x20 [0x81; 0x20] (lit "a" ++ [0]));
    try lia; [reflexivity|right; reflexivity].
Defined.
End Varint.

(** ** The functions of a modern table *)
Section Funcs.
Import Pclntab Symtab Spec ReadSyms Inputs Layout.


Lemma slot_set_strings ss st k : slot (set_strings ss st) k = slot st k.
Proof. reflexivity. Qed.




(** [go12_funcs] returns or raises: its loop runs over a finite range. *)
Lemma go12_funcs_loop_ends data ixs :
  forall st, go12_funcs_loop data ixs st <> OutOfFuel.
Proof.
  induction ixs as [|i ixs IH]; intros st; cbn [go12_funcs_loop]; [discriminate|].
  unfold Go12State_string. destruct (strings st !! _); cbn [mbind result_bind].
  - specialize (IH st). destruct (go12_funcs_loop data ixs st) as [[fns st1]| |];
      cbn [mbind result_bind]; congruence.
  - unfold decode. destruct (utf8 _); cbn [mbind result_bind]; [|discriminate].
    match goal with |- context [go12_funcs_loop data ixs ?s] =>
      specialize (IH s); destruct (go12_funcs_loop data ixs s) as [[fns st1]| |]
    end; cbn [mbind result_bind]; congruence.
Qed.

Lemma go12_funcs_ends st lt : go12_funcs st lt <> OutOfFuel.
Proof.
  unfold go12_funcs. destruct (ptrsize st =? 0); [discriminate|].
  apply go12_funcs_loop_ends.
Qed.

(** With an empty symbol table and a modern line table, [new_table] is
    [go12_funcs] and the table built around its functions. *)
Lemma new_table_modern_value fuel data text st lt :
  go12 (new_line_table data text) = Ok (Some st, lt) ->
  new_table fuel [] (new_line_table data text)
    = '(fns, st') ← go12_funcs st lt;
      Ok (mkTable [] fns ∅ [mkObj (seq 0 (length fns)) None]
            (Some (set_go12 (Some st') lt))).
Proof.
  intros Hgo.
  assert (Hlt : _go12 lt = Some st /\ file_map st = Some ∅).
  { unfold go12, new_line_table in Hgo. cbn [checked_go12] in Hgo.
    destruct (go12_init _) as [lt1| |] eqn:Hinit; cbn [mbind result_bind] in Hgo;
      try discriminate.
    injection Hgo as Hg <-. split; [exact Hg|].
    eapply go12_init_file_map; [|exact Hinit|exact Hg]. reflexivity. }
  destruct Hlt as [Hlt Hfm].
  unfold new_table, new_table_head. rewrite Hgo. cbn [mbind result_bind].
  rewrite bool_decide_eq_true_2 by discriminate.
  change (walksymtab []) with (@nil Raw.sym, Returned None).
  cbn [add_syms mbind result_bind]. rewrite Hlt. cbn [unbound mbind result_bind].
  rewrite (go12_map_files_empty st ∅ 0 Hfm). cbn [mbind result_bind].
  rewrite scan_done by (cbn; lia). cbn [mbind result_bind].
  unfold new_table_tail. cbn [andb Z.eqb L.pcln set_go12 _go12 unbound mbind result_bind].
  assert (Hset : set_go12 (Some st) lt = lt).
  { destruct lt. cbn in Hlt. subst. reflexivity. }
  rewrite Hset. destruct (go12_funcs st lt) as [[fns st']| |]; [|reflexivity..].
  cbn [mbind result_bind L.obj L.objs L.lastf L.syms unbound A.nf A.syms Z.eqb].
  unfold funcs_from. rewrite Nat.sub_0_r. reflexivity.
Qed.

(** The raising case is met: the header of a big-endian table is accepted,
    its offsets are then read least significant byte first, and the name
    found there is not UTF-8. *)
Lemma new_table_big_endian_raises (fuel : nat) :
  malformed_header big_endian_pclntab = false
  /\ new_table fuel [] (new_line_table big_endian_pclntab 0x1000)
       = Raise UnicodeDecodeError.
Proof.
  split; [vm_compute; reflexivity|].
  pose (g := go12 (new_line_table big_endian_pclntab 0x1000)).
  assert (Hg : go12 (new_line_table big_endian_pclntab 0x1000) = g) by reflexivity.
  vm_compute in g.
  match eval unfold g in g with
  | Ok (Some ?st, ?lt) =>
    assert (Hfuncs : go12_funcs st lt = Raise UnicodeDecodeError)
      by (vm_compute; reflexivity);
    rewrite (new_table_modern_value fuel _ _ st lt Hg), Hfuncs
  end.
  reflexivity.
Qed.

(** X19. A modern line table with an empty symbol table: [new_table] ends
    as [go12_funcs] does, whatever the fuel.  When [go12_funcs] returns,
    [new_table] returns a table without symbols or files whose functions
    are the ones enumerated, all owned by one [Obj] without paths; when
    [go12_funcs] raises (a function name that is not UTF-8), [new_table]
    raises the same exception; there is no third case. *)
Theorem new_table_modern_empty (fuel : nat) (data : list Z) (text : Z)
    (st : Go12State) (lt : LineTable)
    (Hgo : go12 (new_line_table data text) = Ok (Some st, lt)) :
  (forall fns st', go12_funcs st lt = Ok (fns, st') ->
     exists t,
       new_table fuel [] (new_line_table data text) = Ok t
       /\ syms t = [] /\ funcs t = fns /\ files t = ∅
       /\ objs t = [mkObj (seq 0 (length fns)) None])
  /\ (forall e, go12_funcs st lt = Raise e ->
        new_table fuel [] (new_line_table data text) = Raise e)
  /\ go12_funcs st lt <> OutOfFuel.
Proof.
  rewrite (new_table_modern_value fuel _ _ _ _ Hgo).
  split; [|split].
  - intros fns st' ->. cbn [mbind result_bind]. eexists. repeat split.
  - intros e ->. reflexivity.
  - apply go12_funcs_ends.
Qed.

Lemma new_table_modern_empty_witness :
  exists t,
    new_table 0 [] (new_line_table one_func_pclntab 0x1000) = Ok t
    /\ syms t = [] /\ funcs t = one_func_funcs /\ files t = ∅
    /\ objs t = [mkObj (seq 0 (length one_func_funcs)) None].
Proof.
  assert (Hgo : go12 (new_line_table one_func_pclntab 0x1000)
                = Ok (Some one_func_state,
                      mkLineTable one_func_pclntab 0x1000 0 true (Some one_func_state)))
    by (vm_compute; reflexivity).
  apply (proj1 (new_table_modern_empty 0 one_func_pclntab 0x1000 one_func_state _ Hgo)
           one_func_funcs (set_strings (<[64 := lit "main.main"]> ∅) one_func_state)).
  vm_compute. reflexivity.
Defined.

(** X20. [go_funcs] on a file with the two sections, the symbol table
    empty and the line table modern, ends as [go12_funcs] does on the line
    table: it returns the functions enumerated when [go12_funcs] returns,
    and raises the same exception when [go12_funcs] raises. *)
Theorem go_funcs_modern (fuel : nat) (elf_file : ELFFile) (text_addr : Z)
    (data : list Z) (st : Go12State) (lt : LineTable)
    (Hpcln : sections elf_file !! ".gopclntab"%string = Some data)
    (Hsym : sections elf_file !! ".gosymtab"%string = Some [])
    (Hgo : go12 (new_line_table data text_addr) = Ok (Some st, lt)) :
  (forall fns st', go12_funcs st lt = Ok (fns, st') ->
     go_funcs fuel elf_file text_addr = Ok fns)
  /\ (forall e, go12_funcs st lt = Raise e ->
        go_funcs fuel elf_file text_addr = Raise e)
  /\ go12_funcs st lt <> OutOfFuel.
Proof.
  unfold go_funcs, section_data. rewrite Hpcln, Hsym. cbn [mbind result_bind].
  rewrite (new_table_modern_value fuel _ _ _ _ Hgo).
  split; [|split].
  - intros fns st' ->. reflexivity.
  - intros e ->. reflexivity.
  - apply go12_funcs_ends.
Qed.

Lemma go_funcs_modern_witness :
  go_funcs 0
    (mkELFFile [mkSegment 5 0x1000]
       (<[".gopclntab"%string := one_func_pclntab]> (<[".gosymtab"%string := []]> ∅)))
    0x1000
  = Ok one_func_funcs.
Proof.
  assert (Hgo : go12 (new_line_table one_func_pclntab 0x1000)
                = Ok (Some one_func_state,
                      mkLineTable one_func_pclntab 0x1000 0 true (Some one_func_state)))
    by (vm_compute; reflexivity).
  set (elf_file := mkELFFile _ _).
  assert (Hpcln : sections elf_file !! ".gopclntab"%string = Some one_func_pclntab)
    by (vm_compute; reflexivity).
  assert (Hsym : sections elf_file !! ".gosymtab"%string = Some [])
    by (vm_compute; reflexivity).
  apply (proj1 (go_funcs_modern 0 elf_file 0x1000 one_func_pclntab one_func_state _
                  Hpcln Hsym Hgo)
           one_func_funcs (set_strings (<[64 := lit "main.main"]> ∅) one_func_state)).
  vm_compute. reflexivity.
Defined.
End Funcs.

(** ** File paths *)
Section Paths.
Import Pclntab Symtab Spec Layout.

Lemma index_bytes_value k :
  0 <= k < 65536 -> from_bytes_big (index_bytes k) = k.
Proof.
  intros Hk. unfold from_bytes_big, index_bytes. cbn [rev app from_bytes_little].
  pose proof (Z.div_mod k 256). lia.
Qed.

Lemma join_registered (fname : gmap Z (list Z)) k n acc :
  0 <= k < 65536 -> fname !! k = Some n ->
  join fname (index_bytes k) acc
    = Ok (match last acc with
          | Some c => if negb (c =? ord "/") then acc ++ lit "/" else acc
          | None => acc
          end ++ n).
Proof.
  intros Hk Hn. unfold join. rewrite index_bytes_value, Hn by exact Hk. reflexivity.
Qed.

(** X22. Two path indices resolve to the two registered names joined by
    one slash; no slash is added after a first name that already ends in
    one. *)
Theorem path_name_two (fname : gmap Z (list Z)) (k1 k2 : Z) (n1 n2 : list Z) (c : Z)
    (Hk1 : 0 <= k1 < 65536) (Hk2 : 0 <= k2 < 65536)
    (H1 : fname !! k1 = Some (n1 ++ [c])) (H2 : fname !! k2 = Some n2) :
  path_name fname (index_bytes k1 ++ index_bytes k2) []
    = Ok (if c =? ord "/" then n1 ++ [c] ++ n2 else n1 ++ [c] ++ lit "/" ++ n2).
Proof.
  cbn [index_bytes app path_name].
  change [k1 / 256; k1 mod 256] with (index_bytes k1).
  rewrite (join_registered fname k1 (n1 ++ [c]) []) by assumption.
  cbn [last app mbind result_bind].
  change [k2 / 256; k2 mod 256] with (index_bytes k2).
  rewrite (join_registered fname k2 n2) by assumption.
  rewrite last_snoc. cbn [mbind result_bind].
  destruct (c =? ord "/"); cbn [negb]; rewrite <- ?app_assoc; reflexivity.
Qed.

Lemma path_name_two_witness :
  path_name (<[1 := lit "dir"]> (<[2 := lit "file.go"]> ∅))
    (index_bytes 1 ++ index_bytes 2) []
  = Ok (if ord "r" =? ord "/" then lit "di" ++ [ord "r"] ++ lit "file.go"
        else lit "di" ++ [ord "r"] ++ lit "/" ++ lit "file.go").
Proof.
  apply (path_name_two (<[1 := lit "dir"]> (<[2 := lit "file.go"]> ∅)) 1 2
           (lit "di") (lit "file.go") (ord "r")); try lia; reflexivity.
Defined.

(** X23. A path that refers to an index not registered so far is refused:
    [path_name] raises the decoding error "bad filename code", wherever in
    the path the index stands. *)
Theorem path_name_unregistered (fname : gmap Z (list Z)) (ks : list Z) (acc : list Z)
    (Hks : Forall (fun k => 0 <= k < 65536) ks)
    (Hbad : Exists (fun k => fname !! k = None) ks) :
  path_name fname (concat (index_bytes <$> ks)) acc
    = Raise (DecodingError "bad filename code").
Proof.
  revert acc. induction Hks as [|k ks Hk Hks IH]; intros acc.
  - inversion Hbad.
  - cbn [fmap list_fmap concat index_bytes app path_name].
    change [k / 256; k mod 256] with (index_bytes k).
    destruct (fname !! k) as [n|] eqn:Hn.
    + rewrite (join_registered fname k n acc) by assumption.
      cbn [mbind result_bind]. apply IH.
      inversion Hbad as [? ? Hhere|? ? Hthere]; subst; [congruence|exact Hthere].
    + unfold join. rewrite index_bytes_value, Hn by exact Hk. reflexivity.
Qed.

Lemma path_name_unregistered_witness :
  path_name (<[1 := lit "dir"]> ∅) (concat (index_bytes <$> [1; 2])) []
    = Raise (DecodingError "bad filename code").
Proof.
  apply (path_name_unregistered (<[1 := lit "dir"]> ∅) [1; 2] []).
  - repeat constructor; lia.
  - apply Exists_cons_tl, Exists_cons_hd. reflexivity.
Defined.

Lemma replace_middle_dot_ascii (n : list Z) :
  Forall (fun b => 0 <= b < 128) n -> replace_middle_dot n = n.
Proof.
  unfold replace_middle_dot.
  induction 1 as [|b n Hb _ IH]; [reflexivity|].
  cbn [fmap list_fmap]. destruct (Z.eqb_spec b 183) as [?|_]; [lia|].
  f_equal. exact IH.
Qed.

(** X24. A file record registers its name under its value, and a path
    record that follows and refers to that value gets the name: the two
    records become two symbols with the same name, and one more run of
    path records is counted. *)
Theorem add_syms_file_then_path (a : A.t) (k v g g' : Z) (n : list Z)
    (Hk : 0 <= k < 65536) (Hn : Forall (fun b => 0 <= b < 128) n) :
  add_syms [Raw.mk k (ord "f") n g; Raw.mk v (ord "Z") (index_bytes k) g'] a
    = Ok (A.mk (A.syms a ++ [mkSym k (ord "f") n g None; mkSym v (ord "Z") n g' None])
            (<[k := n]> (A.fname a)) (A.nf a) (A.nz a + 1) (ord "Z")).
Proof.
  cbn [add_syms]. unfold add_sym at 2.
  cbn [Raw.typ Raw.value Raw.name Raw.gotype].
  change (in_bytes (ord "f") "Zz") with false.
  change (in_bytes (ord "f") "f") with true.
  cbn [andb negb]. unfold decode. rewrite utf8_ascii by exact Hn.
  cbn [fmap result_fmap mbind result_bind].
  rewrite replace_middle_dot_ascii by exact Hn.
  unfold add_sym. cbn [Raw.typ Raw.value Raw.name Raw.gotype A.lasttyp A.fname A.nz A.nf A.syms].
  change (in_bytes (ord "Z") "Zz") with true.
  change (in_bytes (ord "f") "Zz") with false.
  change (in_bytes (ord "Z") "f") with false.
  change (in_bytes (ord "Z") "TtLl") with false.
  cbn [andb negb index_bytes path_name].
  change [k / 256; k mod 256] with (index_bytes k).
  rewrite (join_registered _ k n []) by (try apply lookup_insert_eq; exact Hk).
  cbn [last app mbind result_bind]. rewrite <- app_assoc. reflexivity.
Qed.

Lemma add_syms_file_then_path_witness :
  add_syms [Raw.mk 3 (ord "f") (lit "a.go") 0; Raw.mk 0 (ord "Z") (index_bytes 3) 0]
    (A.mk [] ∅ 0 0 0)
  = Ok (A.mk ([] ++ [mkSym 3 (ord "f") (lit "a.go") 0 None;
                     mkSym 0 (ord "Z") (lit "a.go") 0 None])
          (<[3 := lit "a.go"]> ∅) 0 (0 + 1) (ord "Z")).
Proof.
  apply (add_syms_file_then_path (A.mk [] ∅ 0 0 0) 3 0 0 0 (lit "a.go")); [lia|].
  cbn [lit].
  repeat (apply Forall_cons_2; [vm_compute; split; [discriminate|reflexivity]|]). apply Forall_nil_2.
Defined.
End Paths.

(** ** The text segment *)
Section Text.
Import ReadSyms.

(** X25. [get_text_addr] is the address of the first segment whose flags
    have the execute bit, and [None] exactly when no segment has it. *)
Theorem get_text_addr_first (elf_file : ELFFile) :
  match get_text_addr elf_file with
  | Some addr =>
    exists before seg after,
      iter_segments elf_file = before ++ seg :: after
      /\ Forall (fun s => Z.land (p_flags s) 1 = 0) before
      /\ Z.land (p_flags seg) 1 <> 0 /\ addr = p_vaddr seg
  | None => Forall (fun s => Z.land (p_flags s) 1 = 0) (iter_segments elf_file)
  end.
Proof.
  unfold get_text_addr, get_first_exec_seg.
  induction (iter_segments elf_file) as [|s l IH]; cbn [find]; [constructor|].
  destruct (Z.eqb_spec (Z.land (p_flags s) 1) 0) as [Hz|Hnz]; cbn [negb].
  - destruct (find _ l) as [seg|].
    + destruct IH as (before & seg' & after & -> & Hb & Hs & Ha).
      exists (s :: before), seg', after. repeat split; auto.
    + constructor; assumption.
  - exists [], s, l. repeat split; auto.
Qed.
End Text.
